(** * Notes API backend: a shallow embedding of [src/api] and its contract

    The development follows the layout of the Python package:

    - [db]            [src/api/db.py]: the clock, the SQLite file holding the
                      [notes] table, and the three [execute_*] helpers;
    - [models]        [src/api/models.py]: the Pydantic payload classes and
                      their field constraints;
    - [notes_routes]  [src/api/notes_routes.py]: the five route handlers;
    - [main]          [src/api/main.py]: the application, which validates a
                      request, calls its handler and renders the response.

    A handler reads the wall clock, reads and writes the database and may
    raise [HTTPException]; it is embedded as a function of the clock reading
    and the database that returns an outcome and the database it leaves
    behind.  Every [execute_*] call opens its own connection and commits
    before it returns, so a statement's effect is in place as soon as the
    call is over, also when the handler raises afterwards.

    The SQL statements are embedded by their meaning on the table.  A
    statement fails where [sqlite3] cannot bind its integer parameter: the
    [OverflowError] is not caught anywhere and the request is answered 500.
    Failures of the storage itself (I/O, locking, a rowid counter at the end
    of the 64-bit range) are outside the model.  A Python [str] is a
    [string]; its length is the number of its characters. *)

From Stdlib Require Import ZArith String Ascii List Lia.
From stdpp Require Import base option list gmap strings pretty sorting.

Local Open Scope Z_scope.

(** ** Handlers as functions of the clock and the database *)

Module handler.

Section Handler.
Context {clock store : Type}.

Inductive exn : Type :=
| HTTPException (status_code : Z) (detail : string)
| OverflowError (message : string).

Inductive outcome (A : Type) : Type :=
| Return (a : A)
| Raise (e : exn).
Global Arguments Return {A} a.
Global Arguments Raise {A} e.

Definition t (A : Type) : Type := clock → store → outcome A * store.

Definition ret {A} (a : A) : t A := λ _ s, (Return a, s).

Definition raise {A} (e : exn) : t A := λ _ s, (Raise e, s).

Definition bind {A B} (m : t A) (k : A → t B) : t B :=
  λ c s, match m c s with
         | (Return a, s') => k a c s'
         | (Raise e, s') => (Raise e, s')
         end.

End Handler.

Global Arguments t : clear implicits.

End handler.

#[global] Instance handler_ret {clock store} : MRet (handler.t clock store) :=
  λ A, handler.ret.
#[global] Instance handler_bind {clock store} : MBind (handler.t clock store) :=
  λ A B k m, handler.bind m k.

(** ** [src/api/db.py] *)

Module db.

(** *** The clock: [_utc_now_iso] *)

(** A [datetime] in UTC, as [datetime.now(timezone.utc)] returns it. *)
Record datetime : Type := mk_datetime {
  year : N; month : N; day : N;
  hour : N; minute : N; second : N;
  microsecond : N
}.

(** [d.replace(microsecond=us)] *)
Definition replace_microsecond (us : N) (d : datetime) : datetime :=
  {| year := year d; month := month d; day := day d;
     hour := hour d; minute := minute d; second := second d;
     microsecond := us |}.

Fixpoint zeros (n : nat) : string :=
  match n with
  | O => ""
  | S n' => String "0" (zeros n')
  end.

(** ["%0<width>d" % n] *)
Definition zero_padded (width : nat) (n : N) : string :=
  let digits := pretty n in
  zeros (width - String.length digits) +:+ digits.

(** [d.isoformat()] for an aware datetime whose offset is UTC: the fraction
    is printed only when [microsecond] is not zero. *)
Definition isoformat (d : datetime) : string :=
  zero_padded 4 (year d) +:+ "-" +:+ zero_padded 2 (month d) +:+ "-" +:+
  zero_padded 2 (day d) +:+ "T" +:+
  zero_padded 2 (hour d) +:+ ":" +:+ zero_padded 2 (minute d) +:+ ":" +:+
  zero_padded 2 (second d) +:+
  (if decide (microsecond d = 0%N) then ""
   else "." +:+ zero_padded 6 (microsecond d)) +:+
  "+00:00".

(** [s.replace(old, new)] for a non-empty [old]: occurrences are replaced
    left to right and do not overlap; [skip] counts the characters of an
    occurrence that are still to be dropped. *)
Fixpoint replace_from (old new : string) (skip : nat) (s : string) : string :=
  match s with
  | EmptyString => EmptyString
  | String c s' =>
      match skip with
      | S k => replace_from old new k s'
      | O =>
          if String.prefix old s
          then new +:+ replace_from old new (String.length old - 1) s'
          else String c (replace_from old new 0 s')
      end
  end.

Definition str_replace (old new s : string) : string :=
  replace_from old new 0 s.

Definition _utc_now_iso (now : datetime) : string :=
  str_replace "+00:00" "Z" (isoformat (replace_microsecond 0 now)).

(** *** The database file *)

(** The columns of a [notes] row other than its key.  [id INTEGER PRIMARY KEY]
    is the rowid: the table is a map from rowids to the other columns. *)
Record columns : Type := mk_columns {
  title : string;
  content : string;
  created_at : string;
  updated_at : string
}.

(** The [notes] table and its [sqlite_sequence] entry, which [AUTOINCREMENT]
    maintains: the largest rowid the table has ever held. *)
Record database : Type := mk_database {
  notes : gmap Z columns;
  sqlite_sequence : Z
}.

(** [CREATE TABLE IF NOT EXISTS notes (...)]: a file without the table gets
    an empty one, a file with the table is left alone. *)
Definition ensure_schema (file : option database) : database :=
  match file with
  | None => {| notes := ∅; sqlite_sequence := 0 |}
  | Some d => d
  end.

(** *** Handlers over this clock and this database *)

Abbreviation M := (handler.t datetime database).

(** *** SQL statements, by their meaning *)

(** What a cursor exposes after [execute]. *)
Record cursor : Type := mk_cursor {
  lastrowid : option Z;
  rowcount : Z
}.

(** [cur.execute(sql, params)] raises before the statement runs when a
    parameter cannot be bound.  Otherwise a [SELECT] yields rows, and a
    statement that modifies yields the cursor's counters and the new
    database. *)
Definition select (R : Type) : Type := database → handler.outcome (list R).
Definition modify : Type := database → handler.outcome (cursor * database).

(** The integers of SQLite are the signed 64-bit ones. *)
Definition int64 (n : Z) : Prop := - 2 ^ 63 ≤ n < 2 ^ 63.

(** A Python int given for a [?] is bound as an SQLite integer, and
    [sqlite3] raises [OverflowError] for an int that is none.  Every rowid
    of a table is an SQLite integer; the model lets [AUTOINCREMENT] count
    without the 64-bit limit, and so takes an int for one when it is within
    the 64-bit range or is a rowid of the table. *)
Definition is_INTEGER (n : Z) (d : database) : bool :=
  bool_decide (int64 n) || bool_decide (is_Some (notes d !! n)).

Definition too_large : handler.exn :=
  handler.OverflowError "Python int too large to convert to SQLite INTEGER".

Definition bound {A} (n : Z) (d : database) (result : A) : handler.outcome A :=
  if is_INTEGER n d then handler.Return result else handler.Raise too_large.

(** The largest rowid present, if any. *)
Definition largest_rowid (t : gmap Z columns) : option Z :=
  foldr (λ k acc, Some (from_option (Z.max k) k acc)) None (map_to_list t).*1.

(** The rowid [AUTOINCREMENT] gives to the next row: one more than the
    largest rowid present (1 in an empty table), and at least one more than
    the recorded sequence value. *)
Definition next_rowid (d : database) : Z :=
  Z.max (from_option Z.succ 1 (largest_rowid (notes d))) (sqlite_sequence d + 1).

(** A row of [SELECT id, title, content, created_at, updated_at FROM notes]:
    what [row["id"]], [row["title"]], ... read. *)
Record Row : Type := mk_Row {
  row_id : Z;
  row_title : string;
  row_content : string;
  row_created_at : string;
  row_updated_at : string
}.

Definition to_row (kc : Z * columns) : Row :=
  {| row_id := kc.1; row_title := title kc.2; row_content := content kc.2;
     row_created_at := created_at kc.2; row_updated_at := updated_at kc.2 |}.

(** [ORDER BY updated_at DESC, id DESC]: [r1] is not after [r2].  Text is
    compared byte by byte ([String.le]), integers numerically. *)
Definition ORDER_BY_updated_at_DESC_id_DESC (r1 r2 : Row) : Prop :=
  strict String.le (row_updated_at r2) (row_updated_at r1) ∨
  (row_updated_at r1 = row_updated_at r2 ∧ row_id r2 ≤ row_id r1).

#[global] Instance ORDER_BY_dec : RelDecision ORDER_BY_updated_at_DESC_id_DESC.
Proof. intros r1 r2. unfold ORDER_BY_updated_at_DESC_id_DESC, strict. apply _. Defined.

(** [SELECT id, title, content, created_at, updated_at FROM notes
     ORDER BY updated_at DESC, id DESC] *)
Definition SELECT_notes_ORDER_BY : select Row :=
  λ d, handler.Return
         (merge_sort ORDER_BY_updated_at_DESC_id_DESC (to_row <$> map_to_list (notes d))).

(** [SELECT id, title, content, created_at, updated_at FROM notes WHERE id = ?] *)
Definition SELECT_notes_WHERE_id (note_id : Z) : select Row :=
  λ d, bound note_id d (option_list ((λ c, to_row (note_id, c)) <$> notes d !! note_id)).

(** [SELECT id FROM notes WHERE id = ?]: the rows have the one column. *)
Definition SELECT_id_WHERE_id (note_id : Z) : select Z :=
  λ d, bound note_id d (option_list ((λ _, note_id) <$> notes d !! note_id)).

(** The number of rows that [WHERE id = ?] selects. *)
Definition matching_rows (note_id : Z) (d : database) : Z :=
  match notes d !! note_id with
  | Some _ => 1
  | None => 0
  end.

(** [INSERT INTO notes (title, content, created_at, updated_at)
     VALUES (?, ?, ?, ?)] *)
Definition INSERT_INTO_notes (title content created_at updated_at : string) : modify :=
  λ d, let rowid := next_rowid d in
       handler.Return
         ({| lastrowid := Some rowid; rowcount := 1 |},
          {| notes := <[rowid := mk_columns title content created_at updated_at]> (notes d);
             sqlite_sequence := rowid |}).

(** [UPDATE notes SET title = ?, content = ?, updated_at = ? WHERE id = ?].
    After a statement that inserts nothing [cur.lastrowid] is the rowid of the
    connection's last insert, which is 0 on a connection that has made none,
    as is every connection of [_connect] that runs an UPDATE or a DELETE. *)
Definition UPDATE_notes_WHERE_id (new_title new_content now : string) (note_id : Z)
  : modify :=
  λ d, bound note_id d
         ({| lastrowid := Some 0; rowcount := matching_rows note_id d |},
          {| notes := alter (λ c, {| title := new_title; content := new_content;
                                     created_at := created_at c; updated_at := now |})
                            note_id (notes d);
             sqlite_sequence := sqlite_sequence d |}).

(** [DELETE FROM notes WHERE id = ?] *)
Definition DELETE_FROM_notes_WHERE_id (note_id : Z) : modify :=
  λ d, bound note_id d
         ({| lastrowid := Some 0; rowcount := matching_rows note_id d |},
          {| notes := delete note_id (notes d);
             sqlite_sequence := sqlite_sequence d |}).

(** *** The public helpers *)

(** When [cur.execute] raises, the helper raises the same and [_connect]
    closes the connection without a commit: the file is as it was. *)

(** [cur.execute(sql, params); return cur.fetchall()] *)
Definition execute_select {R} (sql : select R) : M (list R) :=
  λ _ d, match sql d with
         | handler.Return rows => (handler.Return rows, d)
         | handler.Raise e => (handler.Raise e, d)
         end.

(** [cur.execute(sql, params); return cur.fetchone()] *)
Definition execute_select_one {R} (sql : select R) : M (option R) :=
  λ _ d, match sql d with
         | handler.Return rows => (handler.Return (head rows), d)
         | handler.Raise e => (handler.Raise e, d)
         end.

(** [cur.execute(sql, params);
     return int(cur.lastrowid) if cur.lastrowid is not None else int(cur.rowcount)] *)
Definition execute_modify (sql : modify) : M Z :=
  λ _ d, match sql d with
         | handler.Return (cur, d') =>
             (handler.Return (match lastrowid cur with
                              | Some rowid => rowid
                              | None => rowcount cur
                              end), d')
         | handler.Raise e => (handler.Raise e, d)
         end.

Definition utc_now_iso : M string :=
  λ now d, (handler.Return (_utc_now_iso now), d).

End db.

(** ** [src/api/models.py] *)

Module models.

(** A request body as the validation receives it: each of the two fields is
    absent (or null) or a string. *)
Record body : Type := mk_body {
  body_title : option string;
  body_content : option string
}.

(** [Field(..., min_length=, max_length=)] on a string. *)
Definition length_ok (min_length : nat) (max_length : option nat) (s : string) : bool :=
  (min_length <=? String.length s)%nat &&
  match max_length with
  | Some m => (String.length s <=? m)%nat
  | None => true
  end.

Module NoteCreate.

Record t : Type := mk { title : string; content : string }.

(** Both fields are required: [title] of 1 to 200 characters, [content] of at
    least one. *)
Definition validate (b : body) : option t :=
  match body_title b, body_content b with
  | Some title, Some content =>
      if length_ok 1 (Some 200%nat) title && length_ok 1 None content
      then Some (mk title content)
      else None
  | _, _ => None
  end.

End NoteCreate.

Module NoteUpdate.

Record t : Type := mk { title : option string; content : option string }.

(** Both fields default to [None]; the same bounds apply to a field that is
    given. *)
Definition validate (b : body) : option t :=
  if from_option (length_ok 1 (Some 200%nat)) true (body_title b) &&
     from_option (length_ok 1 None) true (body_content b)
  then Some (mk (body_title b) (body_content b))
  else None.

End NoteUpdate.

Module NoteOut.

Record t : Type := mk {
  id : Z;
  title : string;
  content : string;
  created_at : string;
  updated_at : string
}.

End NoteOut.

End models.

(** ** [src/api/notes_routes.py] *)

Module notes_routes.

Import handler models.
Import db (Row, row_id, row_title, row_content, row_created_at, row_updated_at).

Module status.
Definition HTTP_200_OK : Z := 200.
Definition HTTP_201_CREATED : Z := 201.
Definition HTTP_204_NO_CONTENT : Z := 204.
Definition HTTP_400_BAD_REQUEST : Z := 400.
Definition HTTP_404_NOT_FOUND : Z := 404.
Definition HTTP_422_UNPROCESSABLE_ENTITY : Z := 422.
Definition HTTP_500_INTERNAL_SERVER_ERROR : Z := 500.
End status.

(** [fastapi.Response(status_code=...)]: no content, hence an empty body. *)
Record Response : Type := mk_Response {
  Response_status_code : Z;
  Response_body : string
}.

(** [int(row["id"])] and [str(row["title"])], ... leave an integer and a
    text column as they are. *)
Definition _row_to_note_out (row : Row) : NoteOut.t :=
  {| NoteOut.id := row_id row;
     NoteOut.title := row_title row;
     NoteOut.content := row_content row;
     NoteOut.created_at := row_created_at row;
     NoteOut.updated_at := row_updated_at row |}.

Definition list_notes : db.M (list NoteOut.t) :=
  rows ← db.execute_select db.SELECT_notes_ORDER_BY;
  mret (_row_to_note_out <$> rows).

Definition get_note (note_id : Z) : db.M NoteOut.t :=
  row ← db.execute_select_one (db.SELECT_notes_WHERE_id note_id);
  match row with
  | None => raise (HTTPException status.HTTP_404_NOT_FOUND "Note not found")
  | Some row => mret (_row_to_note_out row)
  end.

Definition create_note (payload : NoteCreate.t) : db.M NoteOut.t :=
  now ← db.utc_now_iso;
  new_id ← db.execute_modify
    (db.INSERT_INTO_notes (NoteCreate.title payload) (NoteCreate.content payload) now now);
  row ← db.execute_select_one (db.SELECT_notes_WHERE_id new_id);
  match row with
  | None =>
      raise (HTTPException status.HTTP_500_INTERNAL_SERVER_ERROR "Failed to create note")
  | Some row => mret (_row_to_note_out row)
  end.

Definition update_note (note_id : Z) (payload : NoteUpdate.t) : db.M NoteOut.t :=
  existing ← db.execute_select_one (db.SELECT_notes_WHERE_id note_id);
  match existing with
  | None => raise (HTTPException status.HTTP_404_NOT_FOUND "Note not found")
  | Some existing =>
      let new_title :=
        match NoteUpdate.title payload with
        | Some title => title
        | None => row_title existing
        end in
      let new_content :=
        match NoteUpdate.content payload with
        | Some content => content
        | None => row_content existing
        end in
      match NoteUpdate.title payload, NoteUpdate.content payload with
      | None, None =>
          raise (HTTPException status.HTTP_400_BAD_REQUEST "No fields provided to update")
      | _, _ =>
          now ← db.utc_now_iso;
          _ ← db.execute_modify (db.UPDATE_notes_WHERE_id new_title new_content now note_id);
          row ← db.execute_select_one (db.SELECT_notes_WHERE_id note_id);
          match row with
          | None =>
              raise (HTTPException status.HTTP_500_INTERNAL_SERVER_ERROR "Failed to update note")
          | Some row => mret (_row_to_note_out row)
          end
      end
  end.

Definition delete_note (note_id : Z) : db.M Response :=
  existing ← db.execute_select_one (db.SELECT_id_WHERE_id note_id);
  match existing with
  | None => raise (HTTPException status.HTTP_404_NOT_FOUND "Note not found")
  | Some _ =>
      _ ← db.execute_modify (db.DELETE_FROM_notes_WHERE_id note_id);
      mret {| Response_status_code := status.HTTP_204_NO_CONTENT; Response_body := "" |}
  end.

End notes_routes.

(** ** [src/api/main.py]: the application *)

Module main.

Import handler models notes_routes.

Inductive request : Type :=
| GET_root
| GET_notes
| GET_note (note_id : Z)
| POST_notes (b : body)
| PUT_note (note_id : Z) (b : body)
| DELETE_note (note_id : Z).

(** What a response carries: the JSON of a note, of a list of notes, of
    [{"detail": ...}] for an [HTTPException], of the validation errors, of
    the health message, the raw body of a [Response], or the plain text sent
    for an exception that nothing handles. *)
Inductive content : Type :=
| JSON_note (n : NoteOut.t)
| JSON_notes (l : list NoteOut.t)
| JSON_detail (detail : string)
| JSON_validation_errors
| JSON_message (message : string)
| raw_body (bytes : string)
| plain_text (text : string).

Record response : Type := mk_response {
  status_code : Z;
  response_content : content
}.

(** [@app.on_event("startup")] *)
Definition _startup (file : option db.database) : db.database :=
  db.ensure_schema file.

Definition health_check : content := JSON_message "Healthy".

(** A returned model is rendered as JSON under the route's [status_code], a
    returned [Response] is sent as it is. *)
Definition json {A} (success : Z) (to_content : A → content) : A → response :=
  λ a, mk_response success (to_content a).

Definition as_is (r : Response) : response :=
  mk_response (Response_status_code r) (raw_body (Response_body r)).

(** The answer to an exception that the application has no handler for. *)
Definition internal_server_error : response :=
  mk_response status.HTTP_500_INTERNAL_SERVER_ERROR (plain_text "Internal Server Error").

(** The answer to a request whose handler ran: the rendered result, the
    status and detail of the [HTTPException] it raised, or the answer to any
    other exception. *)
Definition respond {A} (render : A → response) (h : db.M A)
  : db.datetime → db.database → response * db.database :=
  λ now d, match h now d with
           | (Return a, d') => (render a, d')
           | (Raise (HTTPException code detail), d') =>
               (mk_response code (JSON_detail detail), d')
           | (Raise (OverflowError _), d') => (internal_server_error, d')
           end.

(** A body that fails validation is answered before the handler is called. *)
Definition unprocessable : db.datetime → db.database → response * db.database :=
  λ _ d, (mk_response status.HTTP_422_UNPROCESSABLE_ENTITY JSON_validation_errors, d).

Definition app (req : request) : db.datetime → db.database → response * db.database :=
  match req with
  | GET_root => λ _ d, (mk_response status.HTTP_200_OK health_check, d)
  | GET_notes => respond (json status.HTTP_200_OK JSON_notes) list_notes
  | GET_note note_id => respond (json status.HTTP_200_OK JSON_note) (get_note note_id)
  | POST_notes b =>
      match NoteCreate.validate b with
      | Some payload =>
          respond (json status.HTTP_201_CREATED JSON_note) (create_note payload)
      | None => unprocessable
      end
  | PUT_note note_id b =>
      match NoteUpdate.validate b with
      | Some payload =>
          respond (json status.HTTP_200_OK JSON_note) (update_note note_id payload)
      | None => unprocessable
      end
  | DELETE_note note_id => respond as_is (delete_note note_id)
  end.

(** Requests served one after the other, each at its own clock reading. *)
Fixpoint serve (reqs : list (request * db.datetime)) (d : db.database)
  : list response * db.database :=
  match reqs with
  | [] => ([], d)
  | (req, now) :: reqs' =>
      let '(r, d') := app req now d in
      let '(rs, d'') := serve reqs' d' in
      (r :: rs, d'')
  end.

End main.

(** ** Vocabulary of the statements *)

Module contract.

Import handler models notes_routes main.
Import db (database, columns, notes, sqlite_sequence, datetime, _utc_now_iso).

(** The note the API shows for the row stored under [k]. *)
Definition note_of (k : Z) (c : columns) : NoteOut.t :=
  _row_to_note_out (db.to_row (k, c)).

(** What a handler raises when no row has the id it was given: 404, unless
    the id could not be bound. *)
Definition absent (k : Z) : exn :=
  if bool_decide (db.int64 k) then HTTPException status.HTTP_404_NOT_FOUND "Note not found"
  else db.too_large.

(** The answer to a request for an id that no row has. *)
Definition answer_absent (k : Z) : response :=
  if bool_decide (db.int64 k)
  then mk_response status.HTTP_404_NOT_FOUND (JSON_detail "Note not found")
  else internal_server_error.

(** The id a request addresses, if it addresses one. *)
Definition addressed (req : request) : option Z :=
  match req with
  | GET_note k | PUT_note k _ | DELETE_note k => Some k
  | GET_root | GET_notes | POST_notes _ => None
  end.

(** The id that the request addresses, if it addresses one, is within the
    signed 64-bit range. *)
Definition within_int64 (req : request) : Prop :=
  ∀ k, addressed req = Some k → db.int64 k.

(** The notes of a database, in no particular order. *)
Definition stored_notes (d : database) : list NoteOut.t :=
  (λ kc, note_of kc.1 kc.2) <$> map_to_list (notes d).

(** [n1] is listed strictly before [n2]: later [updated_at] first, and among
    equal [updated_at] the larger [id] first. *)
Definition listed_before (n1 n2 : NoteOut.t) : Prop :=
  strict String.le (NoteOut.updated_at n2) (NoteOut.updated_at n1) ∨
  (NoteOut.updated_at n1 = NoteOut.updated_at n2 ∧ NoteOut.id n2 < NoteOut.id n1).

(** [x] occurs in [l] at an earlier position than [y]. *)
Definition occurs_before {A} (x y : A) (l : list A) : Prop :=
  ∃ l1 l2 l3, l = l1 ++ x :: l2 ++ y :: l3.

(** Every stored note was last updated no earlier than it was created. *)
Definition updated_after_created (d : database) : Prop :=
  map_Forall (λ _ c, String.le (db.created_at c) (db.updated_at c)) (notes d).

(** No stored timestamp is later than [now]. *)
Definition timestamps_upto (now : string) (d : database) : Prop :=
  map_Forall (λ _ c, String.le (db.created_at c) now ∧ String.le (db.updated_at c) now)
             (notes d).

(** Along the run of [reqs] from [d], each request's clock reading is no
    earlier than any timestamp then in the store. *)
Fixpoint clock_never_behind (reqs : list (request * datetime)) (d : database) : Prop :=
  match reqs with
  | [] => True
  | (req, now) :: reqs' =>
      timestamps_upto (_utc_now_iso now) d ∧ clock_never_behind reqs' (app req now d).2
  end.

(** The sequence value covers every rowid in the table, as it does in a
    table that only [AUTOINCREMENT] inserts have filled. *)
Definition sequence_covers (d : database) : Prop :=
  map_Forall (λ k _, k ≤ sqlite_sequence d) (notes d).

(** The id a response reports as created, and the ids created by a run. *)
Definition created_id (r : response) : option Z :=
  match response_content r with
  | JSON_note n =>
      if decide (status_code r = status.HTTP_201_CREATED)
      then Some (NoteOut.id n)
      else None
  | _ => None
  end.

Definition created_ids (rs : list response) : list Z := omap created_id rs.

(** The database that a history of requests leaves, starting from a file
    that had no table. *)
Definition database_after (history : list (request * datetime)) : database :=
  (serve history (_startup None)).2.

(** Concrete stores, payloads and clock readings used in the examples. *)
Module ex.

Definition t1 : datetime := db.mk_datetime 2024 1 1 9 30 0 250000.
Definition t2 : datetime := db.mk_datetime 2024 1 2 9 30 0 0.
Definition t3 : datetime := db.mk_datetime 2024 1 3 18 0 59 999999.

Definition groceries : body := mk_body (Some "Groceries") (Some "Milk, eggs").
Definition chores : body := mk_body (Some "Chores") (Some "Laundry").
Definition more_groceries : body := mk_body None (Some "Milk, eggs, bread").
Definition nothing : body := mk_body None None.

Definition d0 : database := _startup None.
Definition d1 : database := (app (POST_notes groceries) t1 d0).2.
Definition d2 : database := (app (POST_notes chores) t2 d1).2.

(** The store after a first note was created at [t2]. *)
Definition d_late : database := (app (POST_notes groceries) t2 d0).2.

End ex.

End contract.

(** ** Further vocabulary: requests, bodies and listings *)

Module behaviour.

Import handler models notes_routes main.
Import db (database, columns, notes, sqlite_sequence, datetime, _utc_now_iso).

(** The requests of the GET routes. *)
Definition is_read (req : request) : bool :=
  match req with
  | GET_root | GET_notes | GET_note _ => true
  | POST_notes _ | PUT_note _ _ | DELETE_note _ => false
  end.

(** The bounds of [NoteCreate] and [NoteUpdate] on a title and on a content. *)
Definition valid_title (s : string) : Prop := (1 ≤ String.length s ≤ 200)%nat.
Definition valid_content (s : string) : Prop := (1 ≤ String.length s)%nat.

(** A body with both fields, each within its bounds. *)
Definition valid_create (b : body) : Prop :=
  ∃ title content,
    body_title b = Some title ∧ body_content b = Some content ∧
    valid_title title ∧ valid_content content.

(** A body each of whose given fields is within its bounds. *)
Definition valid_update (b : body) : Prop :=
  (∀ title, body_title b = Some title → valid_title title) ∧
  (∀ content, body_content b = Some content → valid_content content).

(** Every stored title and content is within the bounds. *)
Definition fields_within_bounds (d : database) : Prop :=
  map_Forall (λ _ c, valid_title (db.title c) ∧ valid_content (db.content c)) (notes d).

(** The clock readings of a run, formatted. *)
Definition readings (reqs : list (request * datetime)) : list string :=
  (λ rt, _utc_now_iso rt.2) <$> reqs.

(** Every stored timestamp is one of the strings [ts]. *)
Definition timestamps_among (ts : list string) (d : database) : Prop :=
  map_Forall (λ _ c, db.created_at c ∈ ts ∧ db.updated_at c ∈ ts) (notes d).

(** Every note other than the one under [k] was last updated strictly before
    [now]. *)
Definition others_updated_before (k : Z) (now : string) (d : database) : Prop :=
  ∀ j c, j ≠ k → notes d !! j = Some c → strict String.le (db.updated_at c) now.

(** What a request adds to the number of notes: one when it is answered 201,
    minus one when it is answered 204, nothing otherwise. *)
Definition count_change (r : response) : Z :=
  if decide (status_code r = status.HTTP_201_CREATED) then 1
  else if decide (status_code r = status.HTTP_204_NO_CONTENT) then -1
  else 0.

End behaviour.

(** ** Further vocabulary: clock readings *)

Module iso8601.

Import db.

(** The upper ends of the ranges of a [datetime]'s fields. *)
Definition within_ranges (t : datetime) : Prop :=
  (year t ≤ 9999 ∧ month t ≤ 12 ∧ day t ≤ 31 ∧
   hour t ≤ 23 ∧ minute t ≤ 59 ∧ second t ≤ 59)%N.

(** The first comparison that is not [Eq]. *)
Definition then_by (c1 c2 : comparison) : comparison :=
  match c1 with
  | Eq => c2
  | _ => c1
  end.

(** Which of two clock readings is the earlier one, to the second. *)
Definition chronological (a b : datetime) : comparison :=
  then_by (year a ?= year b)%N
    (then_by (month a ?= month b)%N
       (then_by (day a ?= day b)%N
          (then_by (hour a ?= hour b)%N
             (then_by (minute a ?= minute b)%N (second a ?= second b)%N)))).

(** [YYYY-MM-DDTHH:MM:SSZ] *)
Definition timestamp_text (t : datetime) : string :=
  zero_padded 4 (year t) +:+ "-" +:+ zero_padded 2 (month t) +:+ "-" +:+
  zero_padded 2 (day t) +:+ "T" +:+
  zero_padded 2 (hour t) +:+ ":" +:+ zero_padded 2 (minute t) +:+ ":" +:+
  zero_padded 2 (second t) +:+ "Z".

(** [a] is not later than [b], to the second. *)
Definition not_later (a b : datetime) : Prop := chronological a b ≠ Gt.

(** The clock readings of a run of requests. *)
Definition clocks {A} (reqs : list (A * datetime)) : list datetime := reqs.*2.

Fixpoint contains (c : ascii) (s : string) : bool :=
  match s with
  | EmptyString => false
  | String c' s' => Ascii.eqb c c' || contains c s'
  end.

(** The numbers below [bound], and two checks on the padded form of a number:
    it has the width and no plus sign; it is before the padded form of the
    next number. *)
Definition below (bound : N) : list N := N.of_nat <$> seq 0 (N.to_nat bound).

Definition padded_plain (width : nat) (n : N) : bool :=
  (String.length (zero_padded width n) =? width)%nat &&
  negb (contains "+" (zero_padded width n)).

Definition padded_step (width : nat) (n : N) : bool :=
  String.ltb (zero_padded width n) (zero_padded width (n + 1)).

End iso8601.

(** ** [src/api/db.py], continued: where the database file is *)

(** The methods of [str] that the parser of [db_connection.txt] calls, for
    texts whose characters are below U+0100 (a character is its code). *)
Module text.

Definition code (c : ascii) : N := N_of_ascii c.

(** The line boundaries of [str.splitlines]: LF, VT, FF, CR, FS, GS, RS and
    NEL (CR LF counts as one). *)
Definition is_linebreak (c : ascii) : bool :=
  bool_decide (code c ∈ [10; 11; 12; 13; 28; 29; 30; 133]%N).

(** [c.isspace()]: TAB to CR, FS to US, the space, NEL and NBSP. *)
Definition isspace (c : ascii) : bool :=
  bool_decide (code c ∈ [9; 10; 11; 12; 13; 28; 29; 30; 31; 32; 133; 160]%N).

(** [c.lower()]: the letters A to Z and the capital letters of Latin-1 (U+00C0
    to U+00DE but for the multiplication sign) move up by 32. *)
Definition lower_char (c : ascii) : ascii :=
  let n := code c in
  if bool_decide ((65 ≤ n ≤ 90)%N ∨ ((192 ≤ n ≤ 222)%N ∧ n ≠ 215%N))
  then ascii_of_N (n + 32)
  else c.

Fixpoint lower (s : string) : string :=
  match s with
  | EmptyString => EmptyString
  | String c s' => String (lower_char c) (lower s')
  end.

(** The text up to the first line boundary, and the texts between the
    boundaries that follow, the last of which runs to the end. *)
Fixpoint segments (s : string) : string * list string :=
  match s with
  | EmptyString => (EmptyString, [])
  | String c s' =>
      if is_linebreak c then
        let rest :=
          match s' with
          | String c' s'' =>
              if bool_decide (code c = 13%N ∧ code c' = 10%N)
              then segments s''
              else segments s'
          | EmptyString => segments s'
          end in
        (EmptyString, rest.1 :: rest.2)
      else
        let rest := segments s' in
        (String c rest.1, rest.2)
  end.

Fixpoint without_empty_end (l : list string) : list string :=
  match l with
  | [] => []
  | x :: l' =>
      match l' with
      | [] => if decide (x = EmptyString) then [] else [x]
      | _ :: _ => x :: without_empty_end l'
      end
  end.

(** [s.splitlines()]: the boundaries are dropped, and a text that ends with
    one has no empty last line. *)
Definition splitlines (s : string) : list string :=
  without_empty_end ((segments s).1 :: (segments s).2).

Fixpoint lstrip (s : string) : string :=
  match s with
  | EmptyString => EmptyString
  | String c s' => if isspace c then lstrip s' else s
  end.

Fixpoint rstrip (s : string) : string :=
  match s with
  | EmptyString => EmptyString
  | String c s' =>
      match rstrip s' with
      | EmptyString => if isspace c then EmptyString else String c EmptyString
      | r => String c r
      end
  end.

(** [s.strip()] *)
Definition strip (s : string) : string := rstrip (lstrip s).

(** [s.startswith(prefix)] *)
Definition startswith (prefix s : string) : bool := String.prefix prefix s.

(** The text before and the text after the first [sep], if there is one. *)
Fixpoint partition (sep : ascii) (s : string) : option (string * string) :=
  match s with
  | EmptyString => None
  | String c s' =>
      if decide (c = sep) then Some (EmptyString, s')
      else match partition sep s' with
           | Some (before, after) => Some (String c before, after)
           | None => None
           end
  end.

(** [s.split(sep, 1)] for a separator of one character. *)
Definition split_once (sep : ascii) (s : string) : list string :=
  match partition sep s with
  | Some (before, after) => [before; after]
  | None => [s]
  end.

(** [s[n:]] *)
Fixpoint from (n : nat) (s : string) : string :=
  match n, s with
  | O, _ => s
  | S n', String _ s' => from n' s'
  | S _, EmptyString => EmptyString
  end.

End text.

Module db_config.

Import text.

Inductive error : Type :=
| RuntimeError (message : string)
| IndexError.

Inductive result (A : Type) : Type :=
| Ok (a : A)
| Raised (e : error).
Global Arguments Ok {A} a.
Global Arguments Raised {A} e.

Section config.

(** [str(_DB_CONNECTION_TXT_PATH)]: it depends on where the package lies. *)
Variable _DB_CONNECTION_TXT_PATH : string.

Definition no_file_path_line : error :=
  RuntimeError ("Could not find '# File path:' in " +:+ _DB_CONNECTION_TXT_PATH +:+
                ". " +:+ "This file is the source of truth for SQLite location.").

(** The body of the [for] loop over the lines, and the [raise] after it. *)
Fixpoint first_file_path (lines : list string) : result string :=
  match lines with
  | [] => Raised no_file_path_line
  | line :: lines' =>
      let line := strip line in
      if startswith "# file path:" (lower line)
      then match split_once ":" line !! 1%nat with
           | Some path => Ok (strip path)
           | None => Raised IndexError
           end
      else first_file_path lines'
  end.

Definition _parse_db_path_from_db_connection_txt (txt : string) : result string :=
  first_file_path (splitlines txt).

End config.

(** A line that carries the marker, in any case and with any whitespace
    around it. *)
Definition has_marker (line : string) : bool :=
  startswith "# file path:" (lower (strip line)).

(** Each line followed by a line feed. *)
Definition unlines (lines : list string) : string :=
  foldr (λ line rest, line +:+ String "010" rest) EmptyString lines.

Fixpoint every (P : ascii → bool) (s : string) : bool :=
  match s with
  | EmptyString => true
  | String c s' => P c && every P s'
  end.

Definition no_linebreak (s : string) : Prop :=
  every (λ c, negb (is_linebreak c)) s = true.

End db_config.

(** ** [src/api/db.py], call by call

    The same functions once more, this time with every call into [pathlib],
    [os] and [sqlite3] made explicit, each of which may return or raise as
    the world outside decides.  What a function does is then the sequence of
    calls it makes and the result it ends with. *)

Module db_calls.

Import text db_config.

(** [posixpath.dirname]: the text up to the last slash, without the slashes
    at its end unless it consists of slashes. *)
Fixpoint upto_last_slash (p : string) : string :=
  match p with
  | EmptyString => EmptyString
  | String c p' =>
      match upto_last_slash p' with
      | EmptyString => if decide (c = "/"%char) then String c EmptyString else EmptyString
      | head => String c head
      end
  end.

Fixpoint rstrip_slashes (s : string) : string :=
  match s with
  | EmptyString => EmptyString
  | String c s' =>
      match rstrip_slashes s' with
      | EmptyString => if decide (c = "/"%char) then EmptyString else String c EmptyString
      | r => String c r
      end
  end.

Definition dirname (p : string) : string :=
  let head := upto_last_slash p in
  if every (λ c, bool_decide (c = "/"%char)) head then head else rstrip_slashes head.

(** A value bound to a statement or read from a row, and a row. *)
Inductive value : Type :=
| Null
| Integer (z : Z)
| Text (s : string).

Definition row : Type := list value.

Inductive call : Type :=
| Path_exists
| Path_read_text
| os_makedirs (name : string)
| sqlite3_connect (database : string)
| conn_set_row_factory
| conn_execute (sql : string)
| conn_cursor
| cur_execute (sql : string) (params : list value)
| cur_fetchall
| cur_fetchone
| cur_close
| conn_commit
| conn_close.

(** What the world outside answers: whether [db_connection.txt] exists and
    what it holds, what the cursor fetches and reports, and which calls raise
    (the [n]-th call of a run raises [what] when [raises n c = Some what]). *)
Record world : Type := mk_world {
  txt_exists : bool;
  txt : string;
  fetchall_rows : list row;
  fetchone_row : option row;
  lastrowid : option Z;
  rowcount : Z;
  raises : nat → call → option string
}.

Inductive exception : Type :=
| Error (e : error)
| LibraryError (what : string).

Inductive outcome (A : Type) : Type :=
| Returned (a : A)
| Raise (e : exception).
Global Arguments Returned {A} a.
Global Arguments Raise {A} e.

(** A call that was made, and whether it returned. *)
Definition entry : Type := call * bool.

(** A computation: in a world, after the calls logged so far, it ends with an
    outcome and a longer log. *)
Definition io (A : Type) : Type := world → list entry → outcome A * list entry.

Definition io_ret {A} (a : A) : io A := λ _ log, (Returned a, log).

Definition io_raise {A} (e : exception) : io A := λ _ log, (Raise e, log).

Definition io_bind {A B} (m : io A) (k : A → io B) : io B :=
  λ w log, match m w log with
           | (Returned a, log') => k a w log'
           | (Raise e, log') => (Raise e, log')
           end.

(** Reading the world's answer. *)
Definition ask {A} (f : world → A) : io A := λ w log, (Returned (f w), log).

Definition perform (c : call) : io unit :=
  λ w log, match raises w (length log) c with
           | Some what => (Raise (LibraryError what), log ++ [(c, false)])
           | None => (Returned tt, log ++ [(c, true)])
           end.

(** [try: body finally: final]: [final] runs whatever [body] did; what it
    raises replaces the outcome of [body]. *)
Definition try_finally {A} (body : io A) (final : io unit) : io A :=
  λ w log, match body w log with
           | (r, log') =>
               match final w log' with
               | (Returned _, log'') => (r, log'')
               | (Raise e, log'') => (Raise e, log'')
               end
           end.

#[global] Instance io_mret : MRet io := λ A, io_ret.
#[global] Instance io_mbind : MBind io := λ A B k m, io_bind m k.

Section calls.

Variable _DB_CONNECTION_TXT_PATH : string.

Definition connection_file_not_found : error :=
  RuntimeError ("Database connection file not found at " +:+
                _DB_CONNECTION_TXT_PATH +:+ ". " +:+
                "Backend must read SQLite path from this file.").

Definition get_db_path : io string :=
  _ ← perform Path_exists;
  found ← ask txt_exists;
  if negb found then io_raise (Error connection_file_not_found)
  else
    _ ← perform Path_read_text;
    txt ← ask txt;
    match _parse_db_path_from_db_connection_txt _DB_CONNECTION_TXT_PATH txt with
    | Raised e => io_raise (Error e)
    | Ok db_path =>
        _ ← perform (os_makedirs (dirname db_path));
        mret db_path
    end.

(** [with _connect() as conn: body]: the generator runs to its [yield], the
    body runs, and the generator goes on (to the commit) or has the
    exception of the body thrown in; its [finally] closes in both cases. *)
Definition _connect {A} (body : io A) : io A :=
  db_path ← get_db_path;
  _ ← perform (sqlite3_connect db_path);
  try_finally
    (_ ← perform conn_set_row_factory;
     _ ← perform (conn_execute "PRAGMA foreign_keys = ON;");
     r ← body;
     _ ← perform conn_commit;
     mret r)
    (perform conn_close).

(** The statement of [ensure_schema], its whitespace reduced to single
    spaces. *)
Definition CREATE_TABLE_notes : string :=
  "CREATE TABLE IF NOT EXISTS notes ( id INTEGER PRIMARY KEY AUTOINCREMENT, title TEXT NOT NULL, content TEXT NOT NULL, created_at TEXT NOT NULL, updated_at TEXT NOT NULL );".

Definition ensure_schema : io unit :=
  _connect (perform (conn_execute CREATE_TABLE_notes)).

Definition execute_select (sql : string) (params : list value) : io (list row) :=
  _connect
    (_ ← perform conn_cursor;
     try_finally
       (_ ← perform (cur_execute sql params);
        _ ← perform cur_fetchall;
        ask fetchall_rows)
       (perform cur_close)).

Definition execute_select_one (sql : string) (params : list value) : io (option row) :=
  _connect
    (_ ← perform conn_cursor;
     try_finally
       (_ ← perform (cur_execute sql params);
        _ ← perform cur_fetchone;
        ask fetchone_row)
       (perform cur_close)).

Definition execute_modify (sql : string) (params : list value) : io Z :=
  _connect
    (_ ← perform conn_cursor;
     try_finally
       (_ ← perform (cur_execute sql params);
        last ← ask lastrowid;
        match last with
        | Some rowid => mret rowid
        | None => ask rowcount
        end)
       (perform cur_close)).

End calls.

(** The discipline of the handles, checked along a log: the path is resolved
    before a connection is opened; the connection is used only while open,
    the cursor only while open; the cursor is closed before the commit and
    before the connection is closed; at the end nothing is left open.  A
    handle is open when the call that makes it has returned, and closed once
    its [close] was called. *)
Fixpoint disciplined (conn cur : bool) (log : list entry) : bool :=
  match log with
  | [] => negb conn && negb cur
  | (c, returned) :: log' =>
      match c with
      | Path_exists | Path_read_text | os_makedirs _ =>
          negb conn && disciplined conn cur log'
      | sqlite3_connect _ => negb conn && disciplined returned cur log'
      | conn_set_row_factory | conn_execute _ | conn_commit =>
          conn && negb cur && disciplined conn cur log'
      | conn_cursor => conn && negb cur && disciplined conn returned log'
      | cur_execute _ _ | cur_fetchall | cur_fetchone =>
          conn && cur && disciplined conn cur log'
      | cur_close => conn && cur && disciplined conn false log'
      | conn_close => conn && negb cur && disciplined false cur log'
      end
  end.

Definition is_commit (c : call) : bool :=
  match c with
  | conn_commit => true
  | _ => false
  end.

(** Every call before the commit, if there is one, has returned. *)
Fixpoint commit_after_success (log : list entry) : bool :=
  match log with
  | [] => true
  | (c, returned) :: log' =>
      is_commit c ||
      ((returned || negb (existsb (λ e, is_commit e.1) log'))
       && commit_after_success log')
  end.

Definition PRAGMA_foreign_keys : string := "PRAGMA foreign_keys = ON;".

(** On every connection, the pragma has returned before a statement is
    executed. *)
Fixpoint pragma_first (enabled : bool) (log : list entry) : bool :=
  match log with
  | [] => true
  | (c, returned) :: log' =>
      match c with
      | sqlite3_connect _ => pragma_first false log'
      | conn_execute sql =>
          if String.eqb sql PRAGMA_foreign_keys then pragma_first returned log'
          else enabled && pragma_first enabled log'
      | cur_execute _ _ => enabled && pragma_first enabled log'
      | _ => pragma_first enabled log'
      end
  end.



Definition is_returned {A} (r : outcome A) : bool :=
  match r with
  | Returned _ => true
  | Raise _ => false
  end.

(** What each helper leaves in the log, whatever raises. *)
Definition sound_log {A} (r : outcome A) (ext : list entry) : Prop :=
  disciplined false false ext = true ∧
  commit_after_success ext = true ∧
  pragma_first false ext = true ∧
  (is_returned r = true →
   forallb snd ext = true ∧ existsb (λ e, is_commit e.1) ext = true).

(** The four helpers that open a connection, each run in a world after a
    log: whether it returned, and the log it leaves. *)
Definition helper_runs (connection_txt_path sql : string) (params : list value)
    (w : world) (log : list entry) : list (bool * list entry) :=
  [ (is_returned (ensure_schema connection_txt_path w log).1,
     (ensure_schema connection_txt_path w log).2);
    (is_returned (execute_select connection_txt_path sql params w log).1,
     (execute_select connection_txt_path sql params w log).2);
    (is_returned (execute_select_one connection_txt_path sql params w log).1,
     (execute_select_one connection_txt_path sql params w log).2);
    (is_returned (execute_modify connection_txt_path sql params w log).1,
     (execute_modify connection_txt_path sql params w log).2) ].

(** A world in which nothing raises and the file names a database. *)
Definition calm (path : string) : world :=
  {| txt_exists := true;
     txt := "# File path: " +:+ path;
     fetchall_rows := [[Integer 1; Text "Groceries"]];
     fetchone_row := Some [Integer 1; Text "Groceries"];
     lastrowid := Some 1;
     rowcount := 1;
     raises := λ _ _, None |}.

(** The same world, but the statement of the cursor raises. *)
Definition stormy (path : string) : world :=
  {| txt_exists := true;
     txt := "# File path: " +:+ path;
     fetchall_rows := [];
     fetchone_row := None;
     lastrowid := None;
     rowcount := 0;
     raises := λ _ c, match c with
                      | cur_execute _ _ => Some "sqlite3.OperationalError"
                      | _ => None
                      end |}.

End db_calls.

(** ** Facts about the database layer *)

Section db_facts.

Import db.

Lemma largest_rowid_bound (t : gmap Z columns) (k : Z) (c : columns) :
  t !! k = Some c → ∃ m, largest_rowid t = Some m ∧ k ≤ m.
Proof.
  intros Hk. apply elem_of_map_to_list in Hk.
  assert (Hin : k ∈ (map_to_list t).*1).
  { apply list_elem_of_fmap. by exists (k, c). }
  unfold largest_rowid. induction ((map_to_list t).*1) as [|j l IH]; simpl.
  - by apply elem_of_nil in Hin.
  - apply elem_of_cons in Hin as [->|Hin].
    + destruct (foldr _ None l); simpl; eexists; split; eauto; lia.
    + destruct (IH Hin) as (m & -> & Hle). simpl. eexists; split; eauto. lia.
Qed.

Lemma largest_rowid_stored (t : gmap Z columns) (m : Z) :
  largest_rowid t = Some m → is_Some (t !! m).
Proof.
  unfold largest_rowid. intros Hm.
  assert (Hin : m ∈ (map_to_list t).*1).
  { revert m Hm. induction ((map_to_list t).*1) as [|j l IH]; simpl; [done|].
    intros m. destruct (foldr _ None l) as [m'|] eqn:Hl; simpl; intros [= <-].
    - destruct (Z.max_spec j m') as [[_ ->]|[_ ->]]; [right; by apply IH|left].
    - left. }
  apply list_elem_of_fmap in Hin as ([k c] & -> & Hkc%elem_of_map_to_list). eauto.
Qed.

(** Where the rowids of the table are SQLite integers, the ints that are
    bound are the signed 64-bit ones and no other. *)
Lemma is_INTEGER_int64 (d : database) (k : Z) :
  map_Forall (λ j _, int64 j) (notes d) → is_INTEGER k d = bool_decide (int64 k).
Proof.
  intros Hkeys. unfold is_INTEGER. destruct (notes d !! k) as [c|] eqn:Hk.
  - rewrite (bool_decide_eq_true_2 _ (Hkeys k c Hk)). done.
  - rewrite (bool_decide_eq_false_2 (is_Some None)) by (by intros [? [=]]).
    by rewrite orb_false_r.
Qed.

Lemma next_rowid_above_rows (d : database) (k : Z) (c : columns) :
  notes d !! k = Some c → k < next_rowid d.
Proof.
  intros Hk. destruct (largest_rowid_bound _ _ _ Hk) as (m & Hm & Hle).
  unfold next_rowid. rewrite Hm. simpl. lia.
Qed.

Lemma next_rowid_above_sequence (d : database) : sqlite_sequence d < next_rowid d.
Proof. unfold next_rowid. lia. Qed.

Lemma bound_stored {A} (k : Z) (d : database) (c : columns) (a : A) :
  notes d !! k = Some c → bound k d a = handler.Return a.
Proof.
  intros Hk. unfold bound, is_INTEGER. rewrite Hk.
  rewrite (bool_decide_eq_true_2 (is_Some (Some c))) by eauto.
  by rewrite orb_true_r.
Qed.

Lemma bound_int64 {A} (k : Z) (d : database) (a : A) :
  int64 k → bound k d a = handler.Return a.
Proof.
  intros Hk. unfold bound, is_INTEGER. by rewrite (bool_decide_eq_true_2 _ Hk).
Qed.

Lemma bound_absent {A} (k : Z) (d : database) (a : A) :
  notes d !! k = None →
  bound k d a = if bool_decide (int64 k) then handler.Return a else handler.Raise too_large.
Proof.
  intros Hk. unfold bound, is_INTEGER. rewrite Hk.
  rewrite (bool_decide_eq_false_2 (is_Some None)) by (by intros [? [=]]).
  by rewrite orb_false_r.
Qed.

Lemma next_rowid_fresh (d : database) : notes d !! next_rowid d = None.
Proof.
  destruct (notes d !! next_rowid d) as [c|] eqn:Hk; [|done].
  apply next_rowid_above_rows in Hk. lia.
Qed.

End db_facts.

(** ** What each handler computes *)

Section handler_facts.

Import handler models notes_routes contract.
Import db (database, columns, notes, sqlite_sequence, datetime, _utc_now_iso).

Ltac run_handler :=
  unfold mbind, handler_bind, mret, handler_ret, handler.bind, handler.ret,
    handler.raise, db.utc_now_iso, db.execute_modify, db.execute_select_one,
    db.SELECT_notes_WHERE_id, db.SELECT_id_WHERE_id; simpl.

Lemma get_note_eq (k : Z) (now : datetime) (d : database) :
  get_note k now d =
  (match notes d !! k with
   | Some c => Return (note_of k c)
   | None => Raise (absent k)
   end, d).
Proof.
  unfold get_note. run_handler. destruct (notes d !! k) as [c|] eqn:Hk.
  - by rewrite (bound_stored k d c).
  - rewrite bound_absent by done. unfold absent. by case_bool_decide.
Qed.

Lemma create_note_eq (payload : NoteCreate.t) (now : datetime) (d : database) :
  let c := db.mk_columns (NoteCreate.title payload) (NoteCreate.content payload)
                         (_utc_now_iso now) (_utc_now_iso now) in
  create_note payload now d =
  (Return (note_of (db.next_rowid d) c),
   {| notes := <[db.next_rowid d := c]> (notes d);
      sqlite_sequence := db.next_rowid d |}).
Proof.
  unfold create_note. run_handler.
  erewrite bound_stored by apply lookup_insert_eq. by rewrite lookup_insert_eq.
Qed.

Lemma update_note_absent (k : Z) (payload : NoteUpdate.t) (now : datetime) (d : database) :
  notes d !! k = None →
  update_note k payload now d = (Raise (absent k), d).
Proof.
  intros Hk. unfold update_note. run_handler. rewrite bound_absent, Hk by done.
  unfold absent. by case_bool_decide.
Qed.

Lemma update_note_no_fields (k : Z) (now : datetime) (d : database) (c : columns) :
  notes d !! k = Some c →
  update_note k (NoteUpdate.mk None None) now d =
  (Raise (HTTPException 400 "No fields provided to update"), d).
Proof.
  intros Hk. unfold update_note. run_handler.
  by rewrite (bound_stored k d c), Hk.
Qed.

Lemma update_note_present (k : Z) (payload : NoteUpdate.t) (now : datetime)
    (d : database) (c : columns) :
  notes d !! k = Some c →
  is_Some (NoteUpdate.title payload) ∨ is_Some (NoteUpdate.content payload) →
  let c' := db.mk_columns (default (db.title c) (NoteUpdate.title payload))
                          (default (db.content c) (NoteUpdate.content payload))
                          (db.created_at c) (_utc_now_iso now) in
  update_note k payload now d =
  (Return (note_of k c'),
   {| notes := <[k := c']> (notes d); sqlite_sequence := sqlite_sequence d |}).
Proof.
  intros Hk Hfields c'.
  assert (Halter : ∀ f, f c = c' → alter f k (notes d) = <[k := c']> (notes d)).
  { intros f Hf. apply map_eq. intros j. rewrite lookup_alter, lookup_insert.
    destruct (decide (k = j)) as [->|]; [by rewrite Hk; simpl; f_equal|done]. }
  unfold update_note. run_handler. rewrite (bound_stored k d c), Hk by done. simpl.
  destruct payload as [[title|] [content|]]; simpl in *;
    try (destruct Hfields as [[? [=]]|[? [=]]]; fail);
    unfold db.UPDATE_notes_WHERE_id; rewrite (bound_stored k d c) by done;
    (rewrite Halter by reflexivity);
    erewrite bound_stored by apply lookup_insert_eq; simpl;
    by rewrite lookup_insert_eq.
Qed.

Lemma delete_note_eq (k : Z) (now : datetime) (d : database) :
  delete_note k now d =
  match notes d !! k with
  | Some _ =>
      (Return (mk_Response 204 ""),
       {| notes := delete k (notes d); sqlite_sequence := sqlite_sequence d |})
  | None => (Raise (absent k), d)
  end.
Proof.
  unfold delete_note. run_handler. destruct (notes d !! k) as [c|] eqn:Hk.
  - rewrite (bound_stored k d c) by done. simpl.
    unfold db.DELETE_FROM_notes_WHERE_id. by rewrite (bound_stored k d c).
  - rewrite bound_absent by done. unfold absent. by case_bool_decide.
Qed.

(** The INSERT of [create_note] goes to an unused rowid: the rows that were
    there stay as they were. *)
Lemma create_note_keeps_rows (payload : NoteCreate.t) (now : datetime)
    (d : database) (k : Z) (c : columns) :
  notes d !! k = Some c → notes (create_note payload now d).2 !! k = Some c.
Proof.
  intros Hk. rewrite create_note_eq. simpl. rewrite lookup_insert_ne; [done|].
  intros Heq. rewrite <- Heq, next_rowid_fresh in Hk. done.
Qed.

End handler_facts.

(** ** What the application answers *)

Section app_facts.

Import handler models notes_routes main contract.
Import db (database, columns, notes, sqlite_sequence, datetime, _utc_now_iso).

Lemma respond_raise {A} (render : A → response) (h : db.M A)
    (now : datetime) (d d' : database) (code : Z) (detail : string) :
  h now d = (Raise (HTTPException code detail), d') →
  respond render h now d = (mk_response code (JSON_detail detail), d').
Proof. intros Hh. unfold respond. by rewrite Hh. Qed.

Lemma length_ok_bounds (lo : nat) (hi : option nat) (s : string) :
  length_ok lo hi s = true ↔
  (lo ≤ String.length s)%nat ∧ (∀ m, hi = Some m → (String.length s ≤ m)%nat).
Proof.
  unfold length_ok. rewrite andb_true_iff, Nat.leb_le. destruct hi as [m|].
  - rewrite Nat.leb_le. split; [intros [? ?]; split; [done|by intros ? [= <-]]|].
    intros [? Hm]; split; [done|by apply Hm].
  - split; [intros [? _]; split; [done|by intros ? [=]]|by intros [? _]].
Qed.

Lemma NoteCreate_validate_Some (b : body) (title content : string) :
  body_title b = Some title → body_content b = Some content →
  (1 ≤ String.length title ≤ 200)%nat → (1 ≤ String.length content)%nat →
  NoteCreate.validate b = Some (NoteCreate.mk title content).
Proof.
  intros Ht Hc [Ht1 Ht2] Hc1. unfold NoteCreate.validate. rewrite Ht, Hc.
  assert (length_ok 1 (Some 200%nat) title = true) as ->.
  { apply length_ok_bounds. split; [done|by intros ? [= <-]]. }
  assert (length_ok 1 None content = true) as ->; [|done].
  apply length_ok_bounds. split; [done|by intros ? [=]].
Qed.

Lemma NoteCreate_validate_None (b : body) :
  (∀ title, body_title b = Some title →
            String.length title = 0%nat ∨ (200 < String.length title)%nat) ∨
  (∀ content, body_content b = Some content → String.length content = 0%nat) →
  NoteCreate.validate b = None.
Proof.
  intros Hbad. unfold NoteCreate.validate.
  destruct (body_title b) as [title|]; [|done].
  destruct (body_content b) as [content|]; [|done].
  destruct (length_ok 1 (Some 200%nat) title) eqn:Ht; [|done].
  destruct (length_ok 1 None content) eqn:Hc; [|done].
  apply length_ok_bounds in Ht as [Ht1 Ht2], Hc as [Hc1 _].
  specialize (Ht2 200%nat eq_refl).
  destruct Hbad as [Hbad|Hbad].
  - destruct (Hbad title eq_refl); lia.
  - specialize (Hbad content eq_refl). lia.
Qed.

Lemma respond_absent {A} (render : A → response) (h : db.M A)
    (now : datetime) (d d' : database) (k : Z) :
  h now d = (Raise (absent k), d') →
  respond render h now d = (answer_absent k, d').
Proof.
  intros Hh. unfold respond. rewrite Hh. unfold absent, answer_absent.
  by case_bool_decide.
Qed.

Lemma absent_int64 (k : Z) :
  db.int64 k → absent k = HTTPException 404 "Note not found".
Proof. intros Hk. unfold absent. by rewrite (bool_decide_eq_true_2 _ Hk). Qed.

Lemma answer_absent_int64 (k : Z) :
  db.int64 k → answer_absent k = mk_response 404 (JSON_detail "Note not found").
Proof. intros Hk. unfold answer_absent. by rewrite (bool_decide_eq_true_2 _ Hk). Qed.

Lemma answer_absent_status (k : Z) :
  status_code (answer_absent k) = 404 ∨ status_code (answer_absent k) = 500.
Proof. unfold answer_absent. case_bool_decide; [by left|by right]. Qed.

Lemma app_GET_note (k : Z) (now : datetime) (d : database) :
  app (GET_note k) now d =
  (match notes d !! k with
   | Some c => mk_response 200 (JSON_note (note_of k c))
   | None => answer_absent k
   end, d).
Proof.
  simpl. destruct (notes d !! k) as [c|] eqn:Hk.
  - unfold respond. by rewrite get_note_eq, Hk.
  - apply respond_absent. by rewrite get_note_eq, Hk.
Qed.

Lemma get_note_Return (k : Z) (now : datetime) (d d' : database) (n : NoteOut.t) :
  get_note k now d = (Return n, d') →
  ∃ c, notes d !! k = Some c ∧ n = note_of k c ∧ d' = d.
Proof.
  rewrite get_note_eq. destruct (notes d !! k) as [c|]; [|done].
  intros [= <- <-]. by exists c.
Qed.

(** The three ways [update_note] can end. *)
Lemma update_note_cases (k : Z) (payload : NoteUpdate.t) (now : datetime) (d : database) :
  (notes d !! k = None ∧ update_note k payload now d = (Raise (absent k), d)) ∨
  (is_Some (notes d !! k) ∧ payload = NoteUpdate.mk None None ∧
   update_note k payload now d =
     (Raise (HTTPException 400 "No fields provided to update"), d)) ∨
  (∃ c, notes d !! k = Some c ∧
        (is_Some (NoteUpdate.title payload) ∨ is_Some (NoteUpdate.content payload)) ∧
        let c' := db.mk_columns (default (db.title c) (NoteUpdate.title payload))
                                (default (db.content c) (NoteUpdate.content payload))
                                (db.created_at c) (_utc_now_iso now) in
        update_note k payload now d =
          (Return (note_of k c'),
           {| notes := <[k := c']> (notes d); sqlite_sequence := sqlite_sequence d |})).
Proof.
  destruct (notes d !! k) as [c|] eqn:Hk.
  - right. destruct payload as [[t|] [c0|]].
    4: { left. split; [eauto|]. split; [done|]. by eapply update_note_no_fields. }
    all: right; exists c; split; [done|]; split; [simpl; eauto|];
      apply update_note_present; simpl; eauto.
  - left. split; [done|]. by apply update_note_absent.
Qed.

(** A request is answered with one of six statuses, unless it addresses an
    id outside the 64-bit range that no row has: that one is answered 500,
    and nothing is changed. *)
Lemma app_status (req : request) (now : datetime) (d : database) :
  status_code (app req now d).1 ∈ [200; 201; 204; 400; 404; 422] ∨
  ∃ k, addressed req = Some k ∧ notes d !! k = None ∧ ¬ db.int64 k ∧
       app req now d = (internal_server_error, d).
Proof.
  assert (Habsent : ∀ k r, addressed req = Some k → notes d !! k = None →
            app req now d = (r, d) → r = answer_absent k →
            status_code (app req now d).1 ∈ [200; 201; 204; 400; 404; 422] ∨
            ∃ k, addressed req = Some k ∧ notes d !! k = None ∧ ¬ db.int64 k ∧
                 app req now d = (internal_server_error, d)).
  { intros k r Hreq Hk -> ->. unfold answer_absent. case_bool_decide.
    - left. by repeat constructor.
    - right. by exists k. }
  destruct req as [| |k|b|k b|k].
  - left. by repeat constructor.
  - left. by repeat constructor.
  - pose proof (app_GET_note k now d) as Happ.
    destruct (notes d !! k) eqn:Hk; [left; rewrite Happ; by repeat constructor|].
    by eapply Habsent.
  - left. simpl. destruct (NoteCreate.validate b) as [payload|]; [|by repeat constructor].
    unfold respond. rewrite create_note_eq. by repeat constructor.
  - destruct (NoteUpdate.validate b) as [payload|] eqn:Hb;
      [|left; simpl; rewrite Hb; by repeat constructor].
    assert (Happ : app (PUT_note k b) now d =
                   respond (json status.HTTP_200_OK JSON_note)
                           (update_note k payload) now d)
      by (simpl; by rewrite Hb).
    destruct (update_note_cases k payload now d)
      as [[Hk Hup]|[(_ & _ & Hup)|(c & _ & _ & Hup)]].
    + apply (Habsent k (answer_absent k)); [done|done| |done].
      rewrite Happ. by apply respond_absent.
    + left. rewrite Happ. unfold respond. rewrite Hup. by repeat constructor.
    + left. rewrite Happ. unfold respond. rewrite Hup. by repeat constructor.
  - pose proof (delete_note_eq k now d) as Hdel.
    destruct (notes d !! k) eqn:Hk.
    + left. simpl. unfold respond. rewrite Hdel. by repeat constructor.
    + apply (Habsent k (answer_absent k)); [done|done| |done].
      simpl. by apply respond_absent.
Qed.

End app_facts.

(** ** The contract of the single operations *)

Section operations.

Import handler models notes_routes main contract.
Import db (database, columns, notes, sqlite_sequence, datetime, _utc_now_iso).

(** X21.  [update_note] looks the note up before it looks at the payload:
    when no row has the id, and the id is within the signed 64-bit range,
    every payload (the empty one included) raises 404 and the application
    answers 404 to every body that validates to it; when a row has the id and
    the payload gives neither field, it raises 400.  The database is left as
    it was in both cases. *)
Theorem update_checks_existence_first (note_id : Z) (payload : NoteUpdate.t)
    (now : datetime) (d : database) :
  (notes d !! note_id = None → db.int64 note_id →
     update_note note_id payload now d =
       (Raise (HTTPException 404 "Note not found"), d) ∧
     ∀ b, NoteUpdate.validate b = Some payload →
          app (PUT_note note_id b) now d =
            (mk_response 404 (JSON_detail "Note not found"), d)) ∧
  (is_Some (notes d !! note_id) →
   NoteUpdate.title payload = None → NoteUpdate.content payload = None →
     update_note note_id payload now d =
       (Raise (HTTPException 400 "No fields provided to update"), d) ∧
     app (PUT_note note_id (mk_body None None)) now d =
       (mk_response 400 (JSON_detail "No fields provided to update"), d)).
Proof.
  split.
  - intros Hk Hrange.
    pose proof (update_note_absent note_id payload now d Hk) as Hup.
    rewrite absent_int64 in Hup by done.
    split; [done|]. intros b Hb. simpl. rewrite Hb. by apply respond_raise.
  - intros [c Hk] Ht Hc. destruct payload as [t' c']; simpl in *; subst.
    pose proof (update_note_no_fields note_id now d c Hk) as Hup.
    split; [done|]. simpl. by apply respond_raise.
Qed.

Lemma update_checks_existence_first_witness :
  (update_note 7 (NoteUpdate.mk None None) ex.t2 ex.d1 =
     (Raise (HTTPException 404 "Note not found"), ex.d1) ∧
   app (PUT_note 7 ex.nothing) ex.t2 ex.d1 =
     (mk_response 404 (JSON_detail "Note not found"), ex.d1)) ∧
  (update_note 1 (NoteUpdate.mk None None) ex.t2 ex.d1 =
     (Raise (HTTPException 400 "No fields provided to update"), ex.d1) ∧
   app (PUT_note 1 ex.nothing) ex.t2 ex.d1 =
     (mk_response 400 (JSON_detail "No fields provided to update"), ex.d1)).
Proof.
  split.
  - destruct (proj1 (update_checks_existence_first 7 (NoteUpdate.mk None None)
                       ex.t2 ex.d1)) as [Hh Happ];
      [by vm_compute | unfold db.int64; lia |].
    split; [exact Hh|]. apply Happ. reflexivity.
  - apply (proj2 (update_checks_existence_first 1 (NoteUpdate.mk None None)
                    ex.t2 ex.d1)); [|reflexivity..].
    vm_compute. eauto.
Defined.

(** C1.  The claim fails for an id that [sqlite3] cannot bind.  The store
    [ex.d1] holds the one note, under id 1.  An update addressed to 2^63 with
    the empty body finds no matching note and yet is not answered 404: the
    first [execute_select_one] of [update_note] raises [OverflowError], which
    nothing catches, and the request is answered 500.  The same holds with a
    body that gives a field. *)
Theorem update_of_unbound_id_not_404 :
  notes ex.d1 !! 9223372036854775808 = None ∧
  update_note 9223372036854775808 (NoteUpdate.mk None None) ex.t2 ex.d1 =
    (Raise (OverflowError "Python int too large to convert to SQLite INTEGER"), ex.d1) ∧
  app (PUT_note 9223372036854775808 ex.nothing) ex.t2 ex.d1 =
    (mk_response 500 (plain_text "Internal Server Error"), ex.d1) ∧
  app (PUT_note 9223372036854775808 ex.more_groceries) ex.t2 ex.d1 =
    (mk_response 500 (plain_text "Internal Server Error"), ex.d1).
Proof. repeat split; vm_compute; reflexivity. Qed.

(** A body that fails validation does not reach the handler: it is answered
    422 whether or not the id has a row. *)
Example update_invalid_body_unprocessable :
  app (PUT_note 7 (mk_body (Some "") None)) ex.t2 ex.d1 =
    (mk_response 422 JSON_validation_errors, ex.d1) ∧
  app (PUT_note 1 (mk_body (Some "") None)) ex.t2 ex.d1 =
    (mk_response 422 JSON_validation_errors, ex.d1).
Proof. split; vm_compute; reflexivity. Qed.

(** C2.  A body whose title has 1 to 200 characters and whose content is not
    empty is answered 201 with a note that carries this title and content
    and whose [created_at] and [updated_at] are both the one clock reading
    of the operation; a later GET of the returned id answers 200 with the
    same note. *)
Theorem create_then_get (b : body) (title content : string)
    (now : datetime) (d : database) :
  body_title b = Some title → body_content b = Some content →
  (1 ≤ String.length title ≤ 200)%nat → (1 ≤ String.length content)%nat →
  ∃ note d',
    app (POST_notes b) now d = (mk_response 201 (JSON_note note), d') ∧
    NoteOut.title note = title ∧ NoteOut.content note = content ∧
    NoteOut.created_at note = _utc_now_iso now ∧
    NoteOut.updated_at note = _utc_now_iso now ∧
    NoteOut.created_at note = NoteOut.updated_at note ∧
    ∀ now', app (GET_note (NoteOut.id note)) now' d' =
              (mk_response 200 (JSON_note note), d').
Proof.
  intros Ht Hc Hlt Hlc.
  pose proof (create_note_eq (NoteCreate.mk title content) now d) as Hcreate.
  simpl in Hcreate. eexists _, _. split.
  - simpl. rewrite (NoteCreate_validate_Some b title content) by done.
    unfold respond. by rewrite Hcreate.
  - repeat split; try reflexivity.
    intros now'. rewrite app_GET_note. simpl. by rewrite lookup_insert_eq.
Qed.

Lemma create_then_get_witness :
  ∃ note d',
    app (POST_notes ex.groceries) ex.t1 ex.d0 = (mk_response 201 (JSON_note note), d') ∧
    NoteOut.title note = "Groceries" ∧ NoteOut.content note = "Milk, eggs" ∧
    NoteOut.created_at note = _utc_now_iso ex.t1 ∧
    NoteOut.updated_at note = _utc_now_iso ex.t1 ∧
    NoteOut.created_at note = NoteOut.updated_at note ∧
    ∀ now', app (GET_note (NoteOut.id note)) now' d' =
              (mk_response 200 (JSON_note note), d').
Proof.
  apply (create_then_get ex.groceries "Groceries" "Milk, eggs" ex.t1 ex.d0);
    [reflexivity | reflexivity | simpl; lia | simpl; lia].
Defined.

(** C7.  A create request whose title is empty or longer than 200 characters,
    or whose content is empty, is answered with the validation error and the
    database is the one it was: the handler, and so the INSERT, is never
    reached. *)
Theorem invalid_create_rejected (b : body) (now : datetime) (d : database) :
  (∃ title, body_title b = Some title ∧
            (title = "" ∨ (200 < String.length title)%nat)) ∨
  body_content b = Some "" →
  NoteCreate.validate b = None ∧
  app (POST_notes b) now d = (mk_response 422 JSON_validation_errors, d).
Proof.
  intros Hbad.
  assert (Hv : NoteCreate.validate b = None).
  { apply NoteCreate_validate_None. destruct Hbad as [(title & Ht & Hbad)|Hc].
    - left. intros title' Ht'. rewrite Ht in Ht'. injection Ht' as <-.
      destruct Hbad as [->|?]; [by left|by right].
    - right. intros content Hc'. rewrite Hc in Hc'. by injection Hc' as <-. }
  split; [done|]. simpl. by rewrite Hv.
Qed.

Lemma invalid_create_rejected_witness :
  NoteCreate.validate (mk_body (Some "") (Some "Milk, eggs")) = None ∧
  app (POST_notes (mk_body (Some "") (Some "Milk, eggs"))) ex.t2 ex.d1 =
    (mk_response 422 JSON_validation_errors, ex.d1).
Proof.
  apply (invalid_create_rejected (mk_body (Some "") (Some "Milk, eggs")) ex.t2 ex.d1).
  left. exists "". split; [reflexivity|by left].
Defined.

(** C3.  Whatever [update_note] is called with, a note that could be read
    under [k] before can be read under [k] after, with the same [id] and the
    same [created_at]; a field the payload omits keeps its stored value, a
    field it gives takes the given value when the note is the one addressed,
    and a note other than the one addressed is unchanged altogether. *)
Theorem update_is_partial (note_id k : Z) (payload : NoteUpdate.t)
    (now now1 now2 : datetime) (d : database) (n : NoteOut.t) :
  get_note k now1 d = (Return n, d) →
  ∃ n', get_note k now2 (update_note note_id payload now d).2 =
          (Return n', (update_note note_id payload now d).2) ∧
        NoteOut.id n' = NoteOut.id n ∧
        NoteOut.created_at n' = NoteOut.created_at n ∧
        (NoteUpdate.title payload = None → NoteOut.title n' = NoteOut.title n) ∧
        (NoteUpdate.content payload = None → NoteOut.content n' = NoteOut.content n) ∧
        (k = note_id → ∀ title, NoteUpdate.title payload = Some title →
                                NoteOut.title n' = title) ∧
        (k = note_id → ∀ content, NoteUpdate.content payload = Some content →
                                  NoteOut.content n' = content) ∧
        (k ≠ note_id → n' = n).
Proof.
  intros (c & Hk & -> & _)%get_note_Return.
  destruct (update_note_cases note_id payload now d)
    as [[Hnone ->]|[(_ & -> & ->)|(c0 & Hk0 & Hfields & ->)]]; simpl.
  - exists (note_of k c). rewrite get_note_eq, Hk.
    repeat split; try done; intros ->; congruence.
  - exists (note_of k c). rewrite get_note_eq, Hk. repeat split; done.
  - rewrite get_note_eq. simpl. destruct (decide (note_id = k)) as [->|Hne].
    + rewrite lookup_insert_eq. rewrite Hk in Hk0. injection Hk0 as <-.
      eexists. split; [reflexivity|]. simpl.
      repeat split; try done; try (by intros ->); by intros _ ? ->.
    + rewrite lookup_insert_ne by done. rewrite Hk.
      exists (note_of k c). repeat split; try done; by intros ->.
Qed.

Lemma update_is_partial_witness :
  ∃ n', get_note 1 ex.t3 (update_note 1 (NoteUpdate.mk None (Some "Milk, eggs, bread"))
                            ex.t2 ex.d1).2 =
          (Return n', (update_note 1 (NoteUpdate.mk None (Some "Milk, eggs, bread"))
                         ex.t2 ex.d1).2) ∧
        NoteOut.id n' = 1 ∧
        NoteOut.created_at n' = "2024-01-01T09:30:00Z" ∧
        (@None string = None → NoteOut.title n' = "Groceries") ∧
        (Some "Milk, eggs, bread" = None → NoteOut.content n' = "Milk, eggs") ∧
        (1 = 1 → ∀ title, None = Some title → NoteOut.title n' = title) ∧
        (1 = 1 → ∀ content, Some "Milk, eggs, bread" = Some content →
                            NoteOut.content n' = content) ∧
        (1 ≠ 1 → n' = NoteOut.mk 1 "Groceries" "Milk, eggs"
                        "2024-01-01T09:30:00Z" "2024-01-01T09:30:00Z").
Proof.
  apply (update_is_partial 1 1 (NoteUpdate.mk None (Some "Milk, eggs, bread"))
           ex.t2 ex.t1 ex.t3 ex.d1
           (NoteOut.mk 1 "Groceries" "Milk, eggs"
              "2024-01-01T09:30:00Z" "2024-01-01T09:30:00Z")).
  vm_compute. reflexivity.
Defined.

(** X22.  For an id within the signed 64-bit range: DELETE of an id that has
    a row answers 204 with an empty body and removes that row and no other,
    after which GET of the id answers 404; DELETE of an id that has no row
    answers 404 and leaves the database as it was. *)
Theorem delete_then_get (k : Z) (now : datetime) (d : database) :
  db.int64 k →
  (is_Some (notes d !! k) →
     ∃ d', delete_note k now d = (Return (mk_Response 204 ""), d') ∧
           app (DELETE_note k) now d = (mk_response 204 (raw_body ""), d') ∧
           notes d' = delete k (notes d) ∧
           (∀ j, j ≠ k → notes d' !! j = notes d !! j) ∧
           ∀ now', app (GET_note k) now' d' =
                     (mk_response 404 (JSON_detail "Note not found"), d')) ∧
  (notes d !! k = None →
     app (DELETE_note k) now d = (mk_response 404 (JSON_detail "Note not found"), d)).
Proof.
  intros Hrange. pose proof (delete_note_eq k now d) as Hdel. split.
  - intros [c Hk]. rewrite Hk in Hdel. eexists. split; [exact Hdel|].
    split; [|split; [|split]].
    + simpl. unfold respond. by rewrite Hdel.
    + done.
    + intros j Hj. simpl. by rewrite lookup_delete_ne.
    + intros now'. rewrite app_GET_note. simpl.
      by rewrite lookup_delete_eq, answer_absent_int64.
  - intros Hk. rewrite Hk, absent_int64 in Hdel by done. simpl. by apply respond_raise.
Qed.

Lemma delete_then_get_witness :
  (∃ d', delete_note 1 ex.t3 ex.d2 = (Return (mk_Response 204 ""), d') ∧
         app (DELETE_note 1) ex.t3 ex.d2 = (mk_response 204 (raw_body ""), d') ∧
         notes d' = delete 1 (notes ex.d2) ∧
         (∀ j, j ≠ 1 → notes d' !! j = notes ex.d2 !! j) ∧
         ∀ now', app (GET_note 1) now' d' =
                   (mk_response 404 (JSON_detail "Note not found"), d')) ∧
  app (DELETE_note 5) ex.t3 ex.d2 =
    (mk_response 404 (JSON_detail "Note not found"), ex.d2).
Proof.
  split.
  - apply (proj1 (delete_then_get 1 ex.t3 ex.d2 ltac:(unfold db.int64; lia))).
    vm_compute. eauto.
  - apply (proj2 (delete_then_get 5 ex.t3 ex.d2 ltac:(unfold db.int64; lia))).
    vm_compute. reflexivity.
Defined.

(** C8.  The claim fails for an id that [sqlite3] cannot bind.  The store
    [ex.d2] holds two notes, under the ids 1 and 2.  DELETE of 2^63, an id
    that is absent, is not answered 404: the [execute_select_one] of
    [delete_note] raises [OverflowError], which nothing catches, and the
    request is answered 500.  The store is left as it was. *)
Theorem delete_of_unbound_id_not_404 :
  notes ex.d2 !! 9223372036854775808 = None ∧
  delete_note 9223372036854775808 ex.t3 ex.d2 =
    (Raise (OverflowError "Python int too large to convert to SQLite INTEGER"), ex.d2) ∧
  app (DELETE_note 9223372036854775808) ex.t3 ex.d2 =
    (mk_response 500 (plain_text "Internal Server Error"), ex.d2).
Proof. repeat split; vm_compute; reflexivity. Qed.

(** X23.  Served one request at a time, the read that follows the INSERT or
    the UPDATE finds the row, so the branches that raise 500 are not taken:
    [create_note] always returns the created note, and an [HTTPException]
    that [update_note] raises is 404 or 400.  For an id within the signed
    64-bit range [update_note] returns the updated note or raises one of
    these two, and a request that addresses such an id, or none, is answered
    200, 201, 204, 400, 404 or 422.  An answer of 500 is that to a GET, PUT
    or DELETE of an id outside the range that no row has. *)
Theorem no_internal_server_error (now : datetime) (d : database) :
  (∀ payload, ∃ n d', create_note payload now d = (Return n, d')) ∧
  (∀ note_id payload code detail d',
     update_note note_id payload now d = (Raise (HTTPException code detail), d') →
     code = 404 ∨ code = 400) ∧
  (∀ note_id payload, db.int64 note_id → ∃ d',
     (∃ n, update_note note_id payload now d = (Return n, d')) ∨
     update_note note_id payload now d =
       (Raise (HTTPException 404 "Note not found"), d') ∨
     update_note note_id payload now d =
       (Raise (HTTPException 400 "No fields provided to update"), d')) ∧
  (∀ req, within_int64 req →
     status_code (app req now d).1 ∈ [200; 201; 204; 400; 404; 422]) ∧
  (∀ req, status_code (app req now d).1 = 500 →
     ∃ k, addressed req = Some k ∧ ¬ db.int64 k ∧ notes d !! k = None).
Proof.
  assert (Hupdate : ∀ note_id payload, db.int64 note_id → ∃ d',
     (∃ n, update_note note_id payload now d = (Return n, d')) ∨
     update_note note_id payload now d =
       (Raise (HTTPException 404 "Note not found"), d') ∨
     update_note note_id payload now d =
       (Raise (HTTPException 400 "No fields provided to update"), d')).
  { intros note_id payload Hrange.
    destruct (update_note_cases note_id payload now d)
      as [[_ ->]|[(_ & _ & ->)|(c & _ & _ & ->)]]; eauto 6.
    rewrite absent_int64 by done. eauto 6. }
  split; [|split; [|split; [done|split]]].
  - intros payload. rewrite create_note_eq. eauto.
  - intros note_id payload code detail d'.
    destruct (update_note_cases note_id payload now d)
      as [[_ ->]|[(_ & _ & ->)|(c & _ & _ & ->)]]; [|by intros [= <- _ _]; right|done].
    unfold absent. case_bool_decide; [by intros [= <- _ _]; left|done].
  - intros req Hreq.
    destruct (app_status req now d) as [Hin|(k & Hk & _ & Hout & _)]; [done|].
    by destruct Hout; apply Hreq.
  - intros req Hstatus.
    destruct (app_status req now d) as [Hin|(k & Hk & Hnone & Hout & _)]; [|by exists k].
    rewrite Hstatus in Hin.
    by repeat (apply elem_of_cons in Hin as [?|Hin]; [done|]);
       apply elem_of_nil in Hin.
Qed.

(** C10.  The branches that raise 500 are never taken, and yet an update can
    be answered 500: addressed to 2^63, an id that [sqlite3] cannot bind, the
    first [execute_select_one] of [update_note] raises [OverflowError], which
    nothing catches.  The store [ex.d1] holds the one note, under id 1. *)
Theorem update_of_unbound_id_answers_500 :
  NoteUpdate.validate ex.more_groceries = Some (NoteUpdate.mk None (Some "Milk, eggs, bread")) ∧
  update_note 9223372036854775808 (NoteUpdate.mk None (Some "Milk, eggs, bread"))
              ex.t2 ex.d1 =
    (Raise (OverflowError "Python int too large to convert to SQLite INTEGER"), ex.d1) ∧
  status_code (app (PUT_note 9223372036854775808 ex.more_groceries) ex.t2 ex.d1).1 = 500.
Proof. repeat split; vm_compute; reflexivity. Qed.

(** C4, as amended.  An update of an existing note that gives at least one
    field returns the note with [updated_at] set to the clock reading of the
    operation, whatever the given values are, and that is the note stored
    afterwards; the new [updated_at] is no earlier than the previous one
    provided the clock reading is no earlier than the previous one. *)
Theorem update_refreshes_updated_at (note_id : Z) (payload : NoteUpdate.t)
    (now : datetime) (d : database) (c : columns) :
  notes d !! note_id = Some c →
  is_Some (NoteUpdate.title payload) ∨ is_Some (NoteUpdate.content payload) →
  ∃ n d',
    update_note note_id payload now d = (Return n, d') ∧
    NoteOut.updated_at n = _utc_now_iso now ∧
    (∀ now', get_note note_id now' d' = (Return n, d')) ∧
    (String.le (db.updated_at c) (_utc_now_iso now) →
     String.le (db.updated_at c) (NoteOut.updated_at n)).
Proof.
  intros Hk Hfields. eexists _, _.
  split; [by apply (update_note_present note_id payload now d c)|].
  split; [done|]. split; [|done].
  intros now'. rewrite get_note_eq. simpl. by rewrite lookup_insert_eq.
Qed.

Lemma update_refreshes_updated_at_witness :
  ∃ n d',
    update_note 1 (NoteUpdate.mk (Some "Groceries") None) ex.t2 ex.d1 = (Return n, d') ∧
    NoteOut.updated_at n = _utc_now_iso ex.t2 ∧
    (∀ now', get_note 1 now' d' = (Return n, d')) ∧
    (String.le "2024-01-01T09:30:00Z" (_utc_now_iso ex.t2) →
     String.le "2024-01-01T09:30:00Z" (NoteOut.updated_at n)).
Proof.
  apply (update_refreshes_updated_at 1 (NoteUpdate.mk (Some "Groceries") None)
           ex.t2 ex.d1
           (db.mk_columns "Groceries" "Milk, eggs"
              "2024-01-01T09:30:00Z" "2024-01-01T09:30:00Z")).
  - vm_compute. reflexivity.
  - left. simpl. eauto.
Defined.

(** C4 as stated fails when the clock was set back between two requests: a
    note created at [t2] and updated at the earlier reading [t1] ends with an
    [updated_at] that is before the one it had. *)
Lemma update_at_earlier_clock_reading :
  (app (POST_notes ex.groceries) ex.t2 ex.d0).1 =
    mk_response 201 (JSON_note (NoteOut.mk 1 "Groceries" "Milk, eggs"
                                  "2024-01-02T09:30:00Z" "2024-01-02T09:30:00Z")) ∧
  notes ex.d_late !! 1 =
    Some (db.mk_columns "Groceries" "Milk, eggs"
                        "2024-01-02T09:30:00Z" "2024-01-02T09:30:00Z") ∧
  (update_note 1 (NoteUpdate.mk None (Some "Milk, eggs, bread")) ex.t1 ex.d_late).1 =
    Return (NoteOut.mk 1 "Groceries" "Milk, eggs, bread"
                       "2024-01-02T09:30:00Z" "2024-01-01T09:30:00Z") ∧
  (app (PUT_note 1 ex.more_groceries) ex.t1 ex.d_late).1 =
    mk_response 200 (JSON_note (NoteOut.mk 1 "Groceries" "Milk, eggs, bread"
                                  "2024-01-02T09:30:00Z" "2024-01-01T09:30:00Z")) ∧
  String.leb "2024-01-02T09:30:00Z" "2024-01-01T09:30:00Z" = false.
Proof. repeat split; vm_compute; reflexivity. Qed.

End operations.

(** ** Listing *)

Section listing.

Import handler models notes_routes main contract.
Import db (database, columns, notes, sqlite_sequence, datetime, _utc_now_iso).

Lemma string_trichotomy (s1 s2 : string) :
  strict String.le s1 s2 ∨ s1 = s2 ∨ strict String.le s2 s1.
Proof.
  destruct (decide (s1 = s2)) as [->|Hne]; [by right; left|].
  destruct (total String.le s1 s2) as [Hle|Hle].
  - left. by apply strict_spec_alt.
  - right; right. by apply strict_spec_alt.
Qed.

#[local] Instance ORDER_BY_trans : Transitive db.ORDER_BY_updated_at_DESC_id_DESC.
Proof.
  intros r1 r2 r3 [H12|[E12 I12]] [H23|[E23 I23]];
    unfold db.ORDER_BY_updated_at_DESC_id_DESC.
  - left. by etrans.
  - left. by rewrite <- E23.
  - left. by rewrite E12.
  - right. split; [congruence|lia].
Qed.

#[local] Instance ORDER_BY_total : Total db.ORDER_BY_updated_at_DESC_id_DESC.
Proof.
  intros r1 r2. unfold db.ORDER_BY_updated_at_DESC_id_DESC.
  destruct (string_trichotomy (db.row_updated_at r1) (db.row_updated_at r2))
    as [Hlt|[Heq|Hlt]]; [by right; left| |by left; left].
  destruct (Z.le_ge_cases (db.row_id r1) (db.row_id r2)); [right|left]; right; eauto.
Qed.

Lemma listed_before_asym (n1 n2 : NoteOut.t) :
  listed_before n1 n2 → ¬ listed_before n2 n1.
Proof.
  intros [H12|[E12 I12]] [H21|[E21 I21]].
  - destruct H12 as [? Hn]. by apply Hn, strict_include.
  - rewrite E21 in H12. by destruct H12.
  - rewrite E12 in H21. by destruct H21.
  - lia.
Qed.

(** Rows in the order of the [ORDER BY] clause and with distinct ids give
    notes each of which is strictly before all those that follow it. *)
Lemma sorted_rows_listed_before (rows : list db.Row) :
  StronglySorted db.ORDER_BY_updated_at_DESC_id_DESC rows →
  NoDup (db.row_id <$> rows) →
  StronglySorted listed_before (_row_to_note_out <$> rows).
Proof.
  induction 1 as [|r rows Hsorted IH Hall]; simpl; [constructor|].
  intros [Hr Hnodup]%NoDup_cons. constructor; [by apply IH|].
  apply Forall_fmap, Forall_forall. intros r' Hr'.
  rewrite Forall_forall in Hall. destruct (Hall r' Hr') as [Hlt|[Heq Hle]].
  - by left.
  - right. split; [done|]. simpl.
    assert (db.row_id r ≠ db.row_id r'); [|lia].
    intros Heq'. apply Hr. rewrite Heq'. apply list_elem_of_fmap. eauto.
Qed.

Lemma list_notes_eq (now : datetime) (d : database) :
  list_notes now d =
  (Return (_row_to_note_out <$>
             merge_sort db.ORDER_BY_updated_at_DESC_id_DESC
                        (db.to_row <$> map_to_list (notes d))), d).
Proof. reflexivity. Qed.

Lemma elem_of_stored_notes (n : NoteOut.t) (d : database) :
  n ∈ stored_notes d ↔ ∃ k c, notes d !! k = Some c ∧ n = note_of k c.
Proof.
  unfold stored_notes. rewrite list_elem_of_fmap. split.
  - intros ([k c] & -> & Hkc%elem_of_map_to_list). by exists k, c.
  - intros (k & c & Hk & ->). exists (k, c). split; [done|].
    by apply elem_of_map_to_list.
Qed.

Lemma occurs_before_sorted {A} (R : relation A) (l : list A) (x y : A) :
  (∀ a b, R a b → ¬ R b a) →
  StronglySorted R l → x ∈ l → y ∈ l → R x y → occurs_before x y l.
Proof.
  intros Hasym Hsorted Hx Hy Hxy.
  apply list_elem_of_split in Hx as (l1 & l2 & ->).
  apply elem_of_app in Hy as [Hy|Hy].
  - exfalso. apply (Hasym x y Hxy).
    apply (StronglySorted_app_1_elem_of R l1 (x :: l2)); [done..|left].
  - apply elem_of_cons in Hy as [->|Hy]; [by destruct (Hasym x x)|].
    apply list_elem_of_split in Hy as (l2a & l2b & ->). by exists l1, l2a, l2b.
Qed.

Lemma app_POST_notes_created (b : body) (now : datetime) (d d' : database)
    (n : NoteOut.t) :
  app (POST_notes b) now d = (mk_response 201 (JSON_note n), d') →
  ∃ title content,
    let c := db.mk_columns title content (_utc_now_iso now) (_utc_now_iso now) in
    n = note_of (db.next_rowid d) c ∧
    d' = {| notes := <[db.next_rowid d := c]> (notes d);
            sqlite_sequence := db.next_rowid d |}.
Proof.
  simpl. destruct (NoteCreate.validate b) as [payload|]; [|done].
  unfold respond. rewrite create_note_eq. intros [= <- <-].
  by exists (NoteCreate.title payload), (NoteCreate.content payload).
Qed.

(** C5, as amended.  GET of the collection answers 200 with every stored
    note, each once, in the order of [updated_at] descending and, among equal
    [updated_at], of [id] descending; an empty table gives the empty list.
    When the database is the result of creating a note A and then a note B,
    B at a clock reading no earlier than A's, B is listed before A. *)
Theorem list_notes_ordered (now : datetime) (d : database) :
  ∃ l, app GET_notes now d = (mk_response 200 (JSON_notes l), d) ∧
       l ≡ₚ stored_notes d ∧
       StronglySorted listed_before l ∧
       (notes d = ∅ → l = []) ∧
       ∀ ba bb ta tb na nb d0 da,
         app (POST_notes ba) ta d0 = (mk_response 201 (JSON_note na), da) →
         app (POST_notes bb) tb da = (mk_response 201 (JSON_note nb), d) →
         String.le (_utc_now_iso ta) (_utc_now_iso tb) →
         occurs_before nb na l.
Proof.
  set (rows := merge_sort db.ORDER_BY_updated_at_DESC_id_DESC
                          (db.to_row <$> map_to_list (notes d))).
  assert (Hperm : rows ≡ₚ db.to_row <$> map_to_list (notes d))
    by apply merge_sort_Permutation.
  assert (Hl : _row_to_note_out <$> rows ≡ₚ stored_notes d).
  { rewrite Hperm. unfold stored_notes. by rewrite <- list_fmap_compose. }
  assert (Hsorted : StronglySorted listed_before (_row_to_note_out <$> rows)).
  { apply sorted_rows_listed_before.
    - apply (StronglySorted_merge_sort _).
    - rewrite Hperm, <- list_fmap_compose. apply (NoDup_fst_map_to_list (notes d)). }
  exists (_row_to_note_out <$> rows).
  split; [|split; [done|split; [done|split]]].
  - simpl. unfold respond. by rewrite list_notes_eq.
  - intros Hempty. subst rows. by rewrite Hempty, map_to_list_empty.
  - intros ba bb ta tb na nb d0 da
      (ta' & ca' & -> & ->)%app_POST_notes_created
      (tb' & cb' & -> & Hd)%app_POST_notes_created Hle.
    simpl in Hd.
    assert (Hlt : db.next_rowid d0 < db.next_rowid
              {| notes := <[db.next_rowid d0 :=
                              db.mk_columns ta' ca' (_utc_now_iso ta) (_utc_now_iso ta)]>
                            (notes d0);
                 sqlite_sequence := db.next_rowid d0 |}).
    { apply (next_rowid_above_sequence
               {| notes := _; sqlite_sequence := db.next_rowid d0 |}). }
    apply (occurs_before_sorted listed_before);
      [apply listed_before_asym | done | | |].
    + rewrite Hl. apply elem_of_stored_notes. eexists _, _. split; [|reflexivity].
      rewrite Hd. simpl. apply lookup_insert_eq.
    + rewrite Hl. apply elem_of_stored_notes. eexists _, _. split; [|reflexivity].
      rewrite Hd. simpl. rewrite lookup_insert_ne by lia. apply lookup_insert_eq.
    + unfold listed_before. simpl.
      destruct (decide (_utc_now_iso ta = _utc_now_iso tb)) as [Heq|Hne].
      * right. split; [done|lia].
      * left. by apply strict_spec_alt.
Qed.

Lemma list_notes_ordered_witness :
  ∃ l, app GET_notes ex.t3 ex.d2 = (mk_response 200 (JSON_notes l), ex.d2) ∧
       occurs_before
         (NoteOut.mk 2 "Chores" "Laundry" "2024-01-02T09:30:00Z" "2024-01-02T09:30:00Z")
         (NoteOut.mk 1 "Groceries" "Milk, eggs"
            "2024-01-01T09:30:00Z" "2024-01-01T09:30:00Z") l.
Proof.
  destruct (list_notes_ordered ex.t3 ex.d2) as (l & Hl & _ & _ & _ & Hab).
  exists l. split; [exact Hl|].
  apply (Hab ex.groceries ex.chores ex.t1 ex.t2 _ _ ex.d0 ex.d1).
  - vm_compute. reflexivity.
  - vm_compute. reflexivity.
  - vm_compute. exact I.
Defined.

(** C5 as stated fails when the clock was set back between the two creations:
    A created at [t2] and then B created at the earlier reading [t1] are
    listed A first. *)
Lemma list_after_clock_set_back :
  (main.serve [(POST_notes ex.groceries, ex.t2); (POST_notes ex.chores, ex.t1);
               (GET_notes, ex.t3)] ex.d0).1 =
  [ mk_response 201 (JSON_note (NoteOut.mk 1 "Groceries" "Milk, eggs"
                                  "2024-01-02T09:30:00Z" "2024-01-02T09:30:00Z"));
    mk_response 201 (JSON_note (NoteOut.mk 2 "Chores" "Laundry"
                                  "2024-01-01T09:30:00Z" "2024-01-01T09:30:00Z"));
    mk_response 200 (JSON_notes
      [ NoteOut.mk 1 "Groceries" "Milk, eggs"
          "2024-01-02T09:30:00Z" "2024-01-02T09:30:00Z";
        NoteOut.mk 2 "Chores" "Laundry"
          "2024-01-01T09:30:00Z" "2024-01-01T09:30:00Z" ]) ].
Proof. vm_compute. reflexivity. Qed.

End listing.

(** ** Runs of requests *)

Section runs.

Import handler models notes_routes main contract.
Import db (database, columns, notes, sqlite_sequence, datetime, _utc_now_iso).

Lemma serve_cons (req : request) (now : datetime) (reqs : list (request * datetime))
    (d : database) :
  serve ((req, now) :: reqs) d =
  ((app req now d).1 :: (serve reqs (app req now d).2).1,
   (serve reqs (app req now d).2).2).
Proof.
  simpl. destruct (app req now d) as [r d']. simpl.
  by destruct (serve reqs d') as [rs d''].
Qed.

(** What one request does to the database: nothing, or it rewrites the row of
    an id keeping its [created_at], or it deletes the row of an id, or, when
    it answers 201 with a note, it inserts that note under the next rowid. *)
Lemma app_effect (req : request) (now : datetime) (d : database) :
  (created_id (app req now d).1 = None ∧
   ((app req now d).2 = d ∨
    (∃ k c title content,
       notes d !! k = Some c ∧
       (app req now d).2 =
         {| notes := <[k := db.mk_columns title content (db.created_at c)
                                          (_utc_now_iso now)]> (notes d);
            sqlite_sequence := sqlite_sequence d |}) ∨
    (∃ k, (app req now d).2 =
            {| notes := delete k (notes d); sqlite_sequence := sqlite_sequence d |}))) ∨
  (created_id (app req now d).1 = Some (db.next_rowid d) ∧
   ∃ title content,
     (app req now d).2 =
       {| notes := <[db.next_rowid d := db.mk_columns title content (_utc_now_iso now)
                                                      (_utc_now_iso now)]> (notes d);
          sqlite_sequence := db.next_rowid d |}).
Proof.
  assert (Habsent : ∀ k, created_id (answer_absent k) = None).
  { intros k. unfold answer_absent. by case_bool_decide. }
  destruct req as [| |k|b|k b|k].
  - left. simpl. eauto.
  - left. simpl. eauto.
  - left. rewrite app_GET_note. destruct (notes d !! k); simpl; eauto.
  - simpl. destruct (NoteCreate.validate b) as [payload|]; [|left; eauto].
    right. unfold respond. rewrite create_note_eq. simpl. eauto.
  - simpl. destruct (NoteUpdate.validate b) as [payload|]; [|left; eauto].
    left.
    destruct (update_note_cases k payload now d)
      as [[_ Hup]|[(_ & _ & Hup)|(c & Hk & _ & Hup)]].
    + rewrite (respond_absent _ _ _ _ _ _ Hup). simpl. eauto.
    + unfold respond. rewrite Hup. simpl. eauto.
    + unfold respond. rewrite Hup. simpl. split; [done|]. right; left. eauto 6.
  - left. simpl. pose proof (delete_note_eq k now d) as Hdel.
    destruct (notes d !! k) eqn:Hk.
    + unfold respond. rewrite Hdel. simpl. eauto 6.
    + rewrite (respond_absent _ _ _ _ _ _ Hdel). simpl. eauto.
Qed.

Lemma app_keeps_order (req : request) (now : datetime) (d : database) :
  updated_after_created d → timestamps_upto (_utc_now_iso now) d →
  updated_after_created (app req now d).2.
Proof.
  intros Hinv Hnow. unfold updated_after_created.
  destruct (app_effect req now d)
    as [[_ [->|[(k & c & t & c0 & Hk & ->)|[k ->]]]]|[_ (t & c0 & ->)]]; simpl.
  - done.
  - apply map_Forall_insert_2; [|done]. simpl. by destruct (Hnow k c Hk).
  - by apply map_Forall_delete.
  - by apply map_Forall_insert_2.
Qed.

Lemma clock_never_behind_take (n : nat) (reqs : list (request * datetime))
    (d : database) :
  clock_never_behind reqs d → clock_never_behind (take n reqs) d.
Proof.
  revert n d. induction reqs as [|[req now] reqs IH]; intros [|n] d; simpl; try done.
  intros [Hnow Hrest]. split; [done|]. by apply IH.
Qed.

Lemma serve_keeps_order (reqs : list (request * datetime)) (d : database) :
  updated_after_created d → clock_never_behind reqs d →
  updated_after_created (serve reqs d).2.
Proof.
  revert d. induction reqs as [|[req now] reqs IH]; intros d Hinv Hclock; [done|].
  rewrite serve_cons. simpl. destruct Hclock as [Hnow Hrest].
  apply IH; [|done]. by apply app_keeps_order.
Qed.

(** C6.  Start from a database in which every note has
    [updated_at >= created_at] (the empty one, for instance) and serve any
    requests, each at a clock reading no earlier than the timestamps stored at
    that moment: after every one of them, every stored note has
    [updated_at >= created_at]. *)
Theorem updated_at_never_before_created_at (reqs : list (request * datetime))
    (d : database) (n : nat) :
  updated_after_created d → clock_never_behind reqs d →
  updated_after_created (serve (take n reqs) d).2.
Proof.
  intros Hinv Hclock. apply serve_keeps_order; [done|].
  by apply clock_never_behind_take.
Qed.

Lemma updated_at_never_before_created_at_witness :
  updated_after_created
    (serve (take 2 [(POST_notes ex.groceries, ex.t1);
                    (PUT_note 1 ex.more_groceries, ex.t2);
                    (DELETE_note 1, ex.t3)]) ex.d0).2.
Proof.
  apply (updated_at_never_before_created_at
           [(POST_notes ex.groceries, ex.t1); (PUT_note 1 ex.more_groceries, ex.t2);
            (DELETE_note 1, ex.t3)] ex.d0 2).
  - unfold updated_after_created. apply (bool_decide_unpack _). vm_compute. exact I.
  - cbn [clock_never_behind]. unfold timestamps_upto.
    repeat (split; [apply (bool_decide_unpack _); vm_compute; exact I|]). exact I.
Defined.

(** One request keeps the sequence value above every rowid and never lowers
    it; an id it creates is above the old sequence value and not above the
    new one; a row found afterwards under an id that the old sequence value
    covers was there before, with the same [created_at]. *)
Lemma app_ids (req : request) (now : datetime) (d : database) :
  sequence_covers d →
  sequence_covers (app req now d).2 ∧
  sqlite_sequence d ≤ sqlite_sequence (app req now d).2 ∧
  (∀ i, created_id (app req now d).1 = Some i →
        sqlite_sequence d < i ≤ sqlite_sequence (app req now d).2) ∧
  (∀ k c', k ≤ sqlite_sequence d → notes (app req now d).2 !! k = Some c' →
           ∃ c, notes d !! k = Some c ∧ db.created_at c = db.created_at c').
Proof.
  intros Hcov. pose proof (next_rowid_above_sequence d) as Hnext.
  unfold sequence_covers.
  destruct (app_effect req now d)
    as [[-> [->|[(k & c & t & c0 & Hk & ->)|[k ->]]]]|[-> (t & c0 & ->)]]; simpl;
    (split; [|split; [lia|split]]); try done.
  - eauto.
  - apply map_Forall_insert_2; [by apply (Hcov k c)|done].
  - intros j c' _. rewrite lookup_insert. destruct (decide (k = j)) as [->|_].
    + intros [= <-]. eauto.
    + eauto.
  - by apply map_Forall_delete.
  - intros j c' _ [_ Hj]%lookup_delete_Some. eauto.
  - apply map_Forall_insert_2; [lia|].
    eapply map_Forall_impl; [exact Hcov|]. simpl. intros; lia.
  - intros i [= <-]. lia.
  - intros j c' Hj. rewrite lookup_insert_ne by lia. eauto.
Qed.



(** With a sequence value that covers the rowids and is not negative, the
    next rowid is the one after it. *)
Lemma next_rowid_covered (d : database) :
  sequence_covers d → 0 ≤ sqlite_sequence d →
  db.next_rowid d = sqlite_sequence d + 1.
Proof.
  intros Hcov Hseq. unfold db.next_rowid.
  destruct (db.largest_rowid (notes d)) as [m|] eqn:Hm; simpl; [|lia].
  destruct (largest_rowid_stored _ _ Hm) as [c Hc].
  specialize (Hcov m c Hc). simpl in Hcov. lia.
Qed.

Lemma app_rowids (req : request) (now : datetime) (d : database) (n : Z) :
  sequence_covers d → 0 ≤ sqlite_sequence d ≤ n →
  map_Forall (λ k _, 1 ≤ k) (notes d) →
  sequence_covers (app req now d).2 ∧
  0 ≤ sqlite_sequence (app req now d).2 ≤ n + 1 ∧
  map_Forall (λ k _, 1 ≤ k) (notes (app req now d).2).
Proof.
  intros Hcov Hseq Hpos. pose proof (next_rowid_covered d Hcov) as Hnext.
  destruct (app_ids req now d Hcov) as (Hcov' & _).
  split; [done|]. clear Hcov'.
  destruct (app_effect req now d)
    as [[_ [->|[(k & c & t & c0 & Hk & ->)|[k ->]]]]|[_ (t & c0 & ->)]]; simpl.
  - split; [lia|done].
  - split; [lia|]. apply map_Forall_insert_2; [by apply (Hpos k c)|done].
  - split; [lia|]. by apply map_Forall_delete.
  - split; [lia|]. apply map_Forall_insert_2; [lia|done].
Qed.

Lemma serve_rowids (reqs : list (request * datetime)) (d : database) (n : Z) :
  sequence_covers d → 0 ≤ sqlite_sequence d ≤ n →
  map_Forall (λ k _, 1 ≤ k) (notes d) →
  sequence_covers (serve reqs d).2 ∧
  0 ≤ sqlite_sequence (serve reqs d).2 ≤ n + Z.of_nat (length reqs) ∧
  map_Forall (λ k _, 1 ≤ k) (notes (serve reqs d).2).
Proof.
  revert d n. induction reqs as [|[req now] reqs IH]; intros d n Hcov Hseq Hpos.
  { simpl. split; [done|]. split; [lia|done]. }
  rewrite serve_cons. simpl length. simpl snd.
  destruct (app_rowids req now d n Hcov Hseq Hpos) as (Hcov' & Hseq' & Hpos').
  destruct (IH _ (n + 1) Hcov' Hseq' Hpos') as (Hcov'' & Hseq'' & Hpos'').
  split; [done|]. split; [lia|done].
Qed.

(** X24.  After any history of requests from a fresh file, every stored id
    is at least 1 and at most the number of requests served.  So, short of
    2^63 requests, every stored id is a signed 64-bit integer, and the ints
    that a statement binds in the database are the signed 64-bit ones and no
    other. *)
Theorem stored_ids_are_sqlite_integers (history : list (request * datetime)) :
  (∀ k c, notes (database_after history) !! k = Some c →
          1 ≤ k ≤ Z.of_nat (length history)) ∧
  (Z.of_nat (length history) < 2 ^ 63 →
   ∀ k, db.is_INTEGER k (database_after history) = bool_decide (db.int64 k)).
Proof.
  destruct (serve_rowids history (_startup None) 0) as (Hcov & Hseq & Hpos);
    [apply map_Forall_empty|done|apply map_Forall_empty|].
  fold (database_after history) in Hcov, Hseq, Hpos.
  assert (Hkeys : ∀ k c, notes (database_after history) !! k = Some c →
                         1 ≤ k ≤ Z.of_nat (length history)).
  { intros k c Hk. specialize (Hcov k c Hk). specialize (Hpos k c Hk).
    simpl in Hcov, Hpos. lia. }
  split; [done|]. intros Hfew k. apply is_INTEGER_int64.
  intros j c Hj. specialize (Hkeys j c Hj). unfold db.int64.
  change (2 ^ 63) with 9223372036854775808 in *. lia.
Qed.

(** Create, update the content, delete, read: 201 with id 1, 200 with the
    title kept and [updated_at] moved, 204, 404. *)
Example groceries_scenario :
  (serve [(POST_notes ex.groceries, ex.t1); (PUT_note 1 ex.more_groceries, ex.t2);
          (DELETE_note 1, ex.t3); (GET_note 1, ex.t3)] ex.d0).1 =
  [ mk_response 201 (JSON_note (NoteOut.mk 1 "Groceries" "Milk, eggs"
                                  "2024-01-01T09:30:00Z" "2024-01-01T09:30:00Z"));
    mk_response 200 (JSON_note (NoteOut.mk 1 "Groceries" "Milk, eggs, bread"
                                  "2024-01-01T09:30:00Z" "2024-01-02T09:30:00Z"));
    mk_response 204 (raw_body "");
    mk_response 404 (JSON_detail "Note not found") ].
Proof. vm_compute. reflexivity. Qed.

(** The id of a deleted note is not given out again. *)
Example deleted_id_not_reused :
  created_ids (serve [(POST_notes ex.groceries, ex.t1); (DELETE_note 1, ex.t2);
                      (POST_notes ex.chores, ex.t3)] ex.d0).1 = [1; 2].
Proof. vm_compute. reflexivity. Qed.

End runs.

(** ** Beyond the claims: validation and side effects *)

Section requests.

Import handler models notes_routes main contract behaviour.
Import db (database, columns, notes, sqlite_sequence, datetime, _utc_now_iso).

Lemma valid_title_length_ok (s : string) :
  valid_title s ↔ length_ok 1 (Some 200%nat) s = true.
Proof.
  rewrite length_ok_bounds. unfold valid_title. split.
  - intros [? ?]. split; [done|]. by intros ? [= <-].
  - intros [? Hm]. split; [done|]. by apply Hm.
Qed.

Lemma valid_content_length_ok (s : string) :
  valid_content s ↔ length_ok 1 None s = true.
Proof.
  rewrite length_ok_bounds. unfold valid_content. split.
  - intros ?. split; [done|]. by intros ? [=].
  - by intros [? _].
Qed.

Lemma valid_create_validate (b : body) :
  valid_create b ↔ is_Some (NoteCreate.validate b).
Proof.
  unfold valid_create, NoteCreate.validate. split.
  - intros (t & c & -> & -> & Ht%valid_title_length_ok & Hc%valid_content_length_ok).
    rewrite Ht, Hc. by eauto.
  - destruct (body_title b) as [t|]; [|by intros [? [=]]].
    destruct (body_content b) as [c|]; [|by intros [? [=]]].
    destruct (length_ok 1 (Some 200%nat) t) eqn:Ht; [|by intros [? [=]]].
    destruct (length_ok 1 None c) eqn:Hc; [|by intros [? [=]]].
    intros _. exists t, c. split; [done|]. split; [done|].
    split; [by apply valid_title_length_ok|by apply valid_content_length_ok].
Qed.

Lemma valid_update_validate (b : body) :
  (valid_update b ∧
   NoteUpdate.validate b = Some (NoteUpdate.mk (body_title b) (body_content b))) ∨
  (¬ valid_update b ∧ NoteUpdate.validate b = None).
Proof.
  assert (Hiff : valid_update b ↔
     from_option (length_ok 1 (Some 200%nat)) true (body_title b) &&
     from_option (length_ok 1 None) true (body_content b) = true).
  { unfold valid_update. rewrite andb_true_iff.
    apply Morphisms_Prop.and_iff_morphism.
    - destruct (body_title b) as [t|]; simpl.
      + rewrite <- valid_title_length_ok. split; [by eauto|by intros ? ? [= <-]].
      + split; [done|by intros _ ? [=]].
    - destruct (body_content b) as [c|]; simpl.
      + rewrite <- valid_content_length_ok. split; [by eauto|by intros ? ? [= <-]].
      + split; [done|by intros _ ? [=]]. }
  unfold NoteUpdate.validate.
  destruct (from_option _ true (body_title b) && from_option _ true (body_content b)).
  - left. split; [by apply Hiff|done].
  - right. split; [by intros [=]%Hiff|done].
Qed.

Lemma list_notes_response (now : datetime) (d : database) :
  db.SELECT_notes_ORDER_BY d =
    Return (merge_sort db.ORDER_BY_updated_at_DESC_id_DESC
                       (db.to_row <$> map_to_list (notes d))) ∧
  app GET_notes now d =
  (mk_response 200
     (JSON_notes (_row_to_note_out <$>
                    merge_sort db.ORDER_BY_updated_at_DESC_id_DESC
                               (db.to_row <$> map_to_list (notes d)))), d).
Proof. split; reflexivity. Qed.

(** X1.  The GET routes only read: whatever they answer, the database is the
    one it was, and the answer is the same at every clock reading. *)
Theorem reads_change_nothing (req : request) (now now' : datetime) (d : database) :
  is_read req = true →
  (app req now d).2 = d ∧ (app req now d).1 = (app req now' d).1.
Proof.
  destruct req as [| |k|b|k b|k]; try done; intros _.
  by rewrite !app_GET_note.
Qed.

Lemma reads_change_nothing_witness :
  (app GET_notes ex.t3 ex.d2).2 = ex.d2 ∧
  (app GET_notes ex.t3 ex.d2).1 = (app GET_notes ex.t1 ex.d2).1.
Proof. apply (reads_change_nothing GET_notes ex.t3 ex.t1 ex.d2). reflexivity. Defined.

(** X2.  A request that is answered with an error status (400 and above)
    has changed nothing in the database. *)
Theorem errors_change_nothing (req : request) (now : datetime) (d : database) :
  400 ≤ status_code (app req now d).1 → (app req now d).2 = d.
Proof.
  destruct req as [| |k|b|k b|k]; [done|done|by rewrite app_GET_note|simpl..].
  - destruct (NoteCreate.validate b) as [payload|]; [|done].
    unfold respond. rewrite create_note_eq. simpl. intros H; exfalso; apply H; reflexivity.
  - destruct (NoteUpdate.validate b) as [payload|]; [|done].
    destruct (update_note_cases k payload now d)
      as [[_ Hup]|[(_ & _ & Hup)|(c & _ & _ & Hup)]].
    + by rewrite (respond_absent _ _ _ _ _ _ Hup).
    + unfold respond. by rewrite Hup.
    + unfold respond. rewrite Hup. simpl. intros H; exfalso; apply H; reflexivity.
  - pose proof (delete_note_eq k now d) as Hdel.
    destruct (notes d !! k) eqn:Hk.
    + unfold respond. rewrite Hdel. simpl. intros H; exfalso; apply H; reflexivity.
    + by rewrite (respond_absent _ _ _ _ _ _ Hdel).
Qed.

Lemma errors_change_nothing_witness :
  (app (PUT_note 1 ex.nothing) ex.t2 ex.d1).2 = ex.d1.
Proof.
  apply (errors_change_nothing (PUT_note 1 ex.nothing) ex.t2 ex.d1).
  vm_compute. discriminate.
Defined.

(** X3.  POST is answered 422, with nothing stored, exactly when the body is
    not a valid one: a field is missing, the title is empty or longer than
    200 characters, or the content is empty.  Every other body is answered
    201. *)
Theorem create_rejected_iff_invalid (b : body) (now : datetime) (d : database) :
  (¬ valid_create b ↔
   app (POST_notes b) now d = (mk_response 422 JSON_validation_errors, d)) ∧
  (valid_create b ↔ status_code (app (POST_notes b) now d).1 = 201).
Proof.
  rewrite valid_create_validate. simpl.
  destruct (NoteCreate.validate b) as [payload|].
  - unfold respond. rewrite create_note_eq. simpl. split; split; try done.
    intros Hno. destruct Hno. eauto.
  - split; split; try done; by intros [? [=]].
Qed.

(** X4.  PUT is answered 422, with nothing read or written, exactly when a
    field that the body gives is out of bounds, whether or not the id has a
    row.  A body whose given fields are within bounds is answered 200, 400,
    404 or 500, and never 500 when the id is within the signed 64-bit range:
    it is answered 500 exactly when the id is outside that range and has no
    row. *)
Theorem update_rejected_iff_invalid (note_id : Z) (b : body)
    (now : datetime) (d : database) :
  (¬ valid_update b ↔
   app (PUT_note note_id b) now d = (mk_response 422 JSON_validation_errors, d)) ∧
  (valid_update b ↔
   status_code (app (PUT_note note_id b) now d).1 ∈ [200; 400; 404; 500]) ∧
  (db.int64 note_id →
   (valid_update b ↔ status_code (app (PUT_note note_id b) now d).1 ∈ [200; 400; 404])) ∧
  (valid_update b ∧ ¬ db.int64 note_id ∧ notes d !! note_id = None ↔
   status_code (app (PUT_note note_id b) now d).1 = 500).
Proof.
  assert (Hnot : ∀ (x : Z) l, x ∈ l → Forall (λ y, x ≠ y) l → False).
  { intros x l Hin Hall. rewrite Forall_forall in Hall. by apply (Hall x). }
  simpl. destruct (valid_update_validate b) as [[Hvalid ->]|[Hbad ->]].
  - set (payload := NoteUpdate.mk (body_title b) (body_content b)).
    destruct (update_note_cases note_id payload now d)
      as [[Hk Hup]|[([c Hk] & _ & Hup)|(c & Hk & _ & Hup)]].
    + rewrite (respond_absent _ _ _ _ _ _ Hup). unfold answer_absent.
      case_bool_decide as Hrange; simpl.
      * split; [split; [done|by intros [=]]|].
        split; [split; [intros _; by repeat constructor|done]|].
        split; [split; [intros _; by repeat constructor|done]|].
        split; [by intros (_ & ? & _)|done].
      * split; [split; [done|by intros [=]]|].
        split; [split; [intros _; by repeat constructor|done]|].
        split; [done|]. split; done.
    + unfold respond. rewrite Hup. simpl.
      split; [split; [done|by intros [=]]|].
      split; [split; [intros _; by repeat constructor|done]|].
      split; [split; [intros _; by repeat constructor|done]|].
      split; [intros (_ & _ & Hnone); congruence|done].
    + unfold respond. rewrite Hup. simpl.
      split; [split; [done|by intros [=]]|].
      split; [split; [intros _; by repeat constructor|done]|].
      split; [split; [intros _; by repeat constructor|done]|].
      split; [intros (_ & _ & Hnone); congruence|done].
  - unfold unprocessable. simpl.
    split; [done|].
    split; [split; [done|intros Hin; exfalso; apply (Hnot _ _ Hin); by repeat constructor]|].
    split; [intros _; split;
             [done|intros Hin; exfalso; apply (Hnot _ _ Hin); by repeat constructor]|].
    split; [by intros [? _]|done].
Qed.

Lemma NoteCreate_validate_inv (b : body) (payload : NoteCreate.t) :
  NoteCreate.validate b = Some payload →
  body_title b = Some (NoteCreate.title payload) ∧
  body_content b = Some (NoteCreate.content payload) ∧
  valid_title (NoteCreate.title payload) ∧ valid_content (NoteCreate.content payload).
Proof.
  unfold NoteCreate.validate.
  destruct (body_title b) as [t|]; [|done]. destruct (body_content b) as [c|]; [|done].
  destruct (length_ok 1 (Some 200%nat) t) eqn:Ht; [|done].
  destruct (length_ok 1 None c) eqn:Hc; [|done].
  intros [= <-]. simpl. split; [done|]. split; [done|].
  split; [by apply valid_title_length_ok|by apply valid_content_length_ok].
Qed.

Lemma app_keeps_bounds (req : request) (now : datetime) (d : database) :
  fields_within_bounds d → fields_within_bounds (app req now d).2.
Proof.
  intros Hinv. unfold fields_within_bounds.
  destruct req as [| |k|b|k b|k]; [done|done|by rewrite app_GET_note|simpl..].
  - destruct (NoteCreate.validate b) as [payload|] eqn:Hv; [|done].
    apply NoteCreate_validate_inv in Hv as (_ & _ & Ht & Hc).
    unfold respond. rewrite create_note_eq. simpl. by apply map_Forall_insert_2.
  - destruct (valid_update_validate b) as [[[Ht Hc] ->]|[_ ->]]; [|done].
    destruct (update_note_cases k (NoteUpdate.mk (body_title b) (body_content b)) now d)
      as [[_ Hup]|[(_ & _ & Hup)|(c & Hk & _ & Hup)]];
      [by rewrite (respond_absent _ _ _ _ _ _ Hup)
      |by unfold respond; rewrite Hup|unfold respond; rewrite Hup; simpl].
    destruct (Hinv k c Hk) as [Htc Hcc].
    apply map_Forall_insert_2; [|done]. simpl. split.
    + destruct (body_title b) as [t|]; simpl; [by apply Ht|done].
    + destruct (body_content b) as [c0|]; simpl; [by apply Hc|done].
  - pose proof (delete_note_eq k now d) as Hdel.
    destruct (notes d !! k) eqn:Hk.
    + unfold respond. rewrite Hdel. simpl. by apply map_Forall_delete.
    + by rewrite (respond_absent _ _ _ _ _ _ Hdel).
Qed.

(** X5.  Storage does not constrain the text columns, the routes do: if every
    stored note has a title of 1 to 200 characters and a content that is not
    empty (as in a fresh database), the same holds after any run of requests:
    no request stores a field that validation would refuse. *)
Theorem stored_fields_stay_within_bounds (reqs : list (request * datetime))
    (d : database) :
  fields_within_bounds d → fields_within_bounds (serve reqs d).2.
Proof.
  revert d. induction reqs as [|[req now] reqs IH]; intros d Hinv; [done|].
  rewrite serve_cons. simpl. by apply IH, app_keeps_bounds.
Qed.

Lemma stored_fields_stay_within_bounds_witness :
  fields_within_bounds
    (serve [(POST_notes ex.groceries, ex.t1); (PUT_note 1 ex.more_groceries, ex.t2);
            (PUT_note 1 (mk_body (Some "") None), ex.t3)] ex.d0).2.
Proof.
  apply (stored_fields_stay_within_bounds
           [(POST_notes ex.groceries, ex.t1); (PUT_note 1 ex.more_groceries, ex.t2);
            (PUT_note 1 (mk_body (Some "") None), ex.t3)] ex.d0).
  apply map_Forall_empty.
Defined.

Lemma app_timestamps (req : request) (now : datetime) (d : database) (ts : list string) :
  timestamps_among ts d →
  timestamps_among (ts ++ [_utc_now_iso now]) (app req now d).2.
Proof.
  intros Hinv.
  assert (Hweak : timestamps_among (ts ++ [_utc_now_iso now]) d).
  { eapply map_Forall_impl; [exact Hinv|]. simpl. intros _ c [? ?].
    split; apply elem_of_app; by left. }
  assert (Hnow : _utc_now_iso now ∈ ts ++ [_utc_now_iso now]).
  { apply elem_of_app. right. by left. }
  unfold timestamps_among in *.
  destruct (app_effect req now d)
    as [[_ [->|[(k & c & t & c0 & Hk & ->)|[k ->]]]]|[_ (t & c0 & ->)]]; simpl.
  - done.
  - apply map_Forall_insert_2; [|done]. simpl. split; [|done].
    by destruct (Hweak k c Hk).
  - by apply map_Forall_delete.
  - by apply map_Forall_insert_2.
Qed.

Lemma serve_timestamps (reqs : list (request * datetime)) (d : database)
    (ts : list string) :
  timestamps_among ts d → timestamps_among (ts ++ readings reqs) (serve reqs d).2.
Proof.
  revert d ts. induction reqs as [|[req now] reqs IH]; intros d ts Hinv.
  - simpl. by rewrite app_nil_r.
  - change (readings ((req, now) :: reqs)) with (_utc_now_iso now :: readings reqs).
    rewrite serve_cons, cons_middle, app_assoc.
    by apply IH, app_timestamps.
Qed.

(** X6.  Timestamps only come from the clock: after any run from a fresh
    database, every stored [created_at] and [updated_at] is the formatted
    clock reading of one of the requests served. *)
Theorem stored_timestamps_are_readings (history : list (request * datetime)) :
  timestamps_among (readings history) (database_after history).
Proof.
  apply (serve_timestamps history (_startup None) []). apply map_Forall_empty.
Qed.

End requests.

(** ** Beyond the claims: the listing *)

Section more_listing.

Import handler models notes_routes main contract behaviour.
Import db (database, columns, notes, sqlite_sequence, datetime, _utc_now_iso).

#[local] Existing Instance ORDER_BY_trans.
#[local] Existing Instance ORDER_BY_total.

(** The listing of a database: the stored notes, rearranged so that each is
    strictly before all those that follow it. *)
Lemma listing_sorted_permutation (now : datetime) (d : database) :
  ∃ l, app GET_notes now d = (mk_response 200 (JSON_notes l), d) ∧
       l ≡ₚ stored_notes d ∧ StronglySorted listed_before l.
Proof.
  set (rows := merge_sort db.ORDER_BY_updated_at_DESC_id_DESC
                          (db.to_row <$> map_to_list (notes d))).
  assert (Hperm : rows ≡ₚ db.to_row <$> map_to_list (notes d))
    by apply merge_sort_Permutation.
  exists (_row_to_note_out <$> rows). split; [done|]. split.
  - rewrite Hperm. unfold stored_notes. by rewrite <- list_fmap_compose.
  - apply sorted_rows_listed_before.
    + apply (StronglySorted_merge_sort _).
    + rewrite Hperm, <- list_fmap_compose. apply (NoDup_fst_map_to_list (notes d)).
Qed.

Lemma listing_inv (now : datetime) (d d' : database) (l : list NoteOut.t) :
  app GET_notes now d = (mk_response 200 (JSON_notes l), d') →
  d' = d ∧ l ≡ₚ stored_notes d ∧ StronglySorted listed_before l.
Proof.
  destruct (listing_sorted_permutation now d) as (l0 & -> & Hperm & Hsorted).
  by intros [= <- <-].
Qed.

Lemma stored_notes_ids (d : database) :
  NoteOut.id <$> stored_notes d = (map_to_list (notes d)).*1.
Proof. unfold stored_notes. by rewrite <- list_fmap_compose. Qed.

Lemma stored_notes_length (d : database) : length (stored_notes d) = size (notes d).
Proof. unfold stored_notes. by rewrite length_fmap, length_map_to_list. Qed.

(** In a list where each element is before all those that follow it, an
    element that is before every other one is the first. *)
Lemma first_of_sorted {A} (R : relation A) (l : list A) (x : A) :
  (∀ a b, R a b → ¬ R b a) →
  StronglySorted R l → x ∈ l → (∀ y, y ∈ l → y ≠ x → R x y) →
  ∃ rest, l = x :: rest.
Proof.
  intros Hasym Hsorted Hx Hfirst. destruct Hsorted as [|h rest Hrest Hh].
  { by apply elem_of_nil in Hx. }
  apply elem_of_cons in Hx as [->|Hx]; [by eauto|].
  rewrite Forall_forall in Hh.
  destruct (Hasym h x); [by apply Hh|].
  apply Hfirst; [by left|]. intros ->. by apply (Hasym x x); apply Hh.
Qed.

(** X7.  The listing and the single reads agree: a note is in the listing
    exactly when GET of its id answers 200 with that very note, and no two
    listed notes have the same id. *)
Theorem listing_agrees_with_get (now : datetime) (d : database) :
  ∃ l, app GET_notes now d = (mk_response 200 (JSON_notes l), d) ∧
       NoDup (NoteOut.id <$> l) ∧
       ∀ n, n ∈ l ↔
            app (GET_note (NoteOut.id n)) now d = (mk_response 200 (JSON_note n), d).
Proof.
  destruct (listing_sorted_permutation now d) as (l & Hl & Hperm & _).
  exists l. split; [done|]. split.
  - rewrite Hperm, stored_notes_ids. apply NoDup_fst_map_to_list.
  - intros n. rewrite Hperm, elem_of_stored_notes, app_GET_note. split.
    + intros (k & c & Hk & ->). simpl. by rewrite Hk.
    + destruct (notes d !! NoteOut.id n) as [c|] eqn:Hk;
        [|unfold answer_absent; by case_bool_decide].
      intros [= Hn]. by exists (NoteOut.id n), c.
Qed.

(** X8.  The order of the listing is settled by the data alone: an
    arrangement of the listed notes in which each note comes strictly before
    all those that follow it ([updated_at] descending, then [id] descending)
    is the listing itself. *)
Theorem listing_order_is_unique (now : datetime) (d : database)
    (l l' : list NoteOut.t) :
  app GET_notes now d = (mk_response 200 (JSON_notes l), d) →
  l' ≡ₚ l → StronglySorted listed_before l' → l' = l.
Proof.
  intros (_ & _ & Hsorted)%listing_inv Hperm Hsorted'.
  apply (StronglySorted_unique_strong listed_before); [|done..].
  intros n1 n2 _ _ H12 H21. by destruct (listed_before_asym n1 n2).
Qed.

Lemma listing_order_is_unique_witness :
  [ NoteOut.mk 2 "Chores" "Laundry" "2024-01-02T09:30:00Z" "2024-01-02T09:30:00Z";
    NoteOut.mk 1 "Groceries" "Milk, eggs"
      "2024-01-01T09:30:00Z" "2024-01-01T09:30:00Z" ] =
  [ NoteOut.mk 2 "Chores" "Laundry" "2024-01-02T09:30:00Z" "2024-01-02T09:30:00Z";
    NoteOut.mk 1 "Groceries" "Milk, eggs"
      "2024-01-01T09:30:00Z" "2024-01-01T09:30:00Z" ].
Proof.
  apply (listing_order_is_unique ex.t3 ex.d2).
  - vm_compute. reflexivity.
  - reflexivity.
  - unfold listed_before, strict. apply (bool_decide_unpack _). vm_compute. exact I.
Defined.

Ltac eval_count_change :=
  match goal with
  | |- context [count_change ?r] =>
      let v := eval vm_compute in (count_change r) in
      change (count_change r) with v
  end.

Lemma app_size (req : request) (now : datetime) (d : database) :
  Z.of_nat (size (notes (app req now d).2)) =
  Z.of_nat (size (notes d)) + count_change (app req now d).1.
Proof.
  assert (Hsame : ∀ r, count_change r = 0 →
            Z.of_nat (size (notes d)) = Z.of_nat (size (notes d)) + count_change r).
  { intros r ->. by rewrite Z.add_0_r. }
  assert (Habsent : ∀ k, count_change (answer_absent k) = 0).
  { intros k. unfold answer_absent. by case_bool_decide. }
  destruct req as [| |k|b|k b|k]; [by apply Hsame|by apply Hsame| |simpl..].
  - rewrite app_GET_note. destruct (notes d !! k); apply Hsame; [done|apply Habsent].
  - destruct (NoteCreate.validate b) as [payload|]; [|by apply Hsame].
    unfold respond. rewrite create_note_eq. simpl. eval_count_change.
    rewrite map_size_insert_None by apply next_rowid_fresh.
    by rewrite Nat2Z.inj_succ.
  - destruct (NoteUpdate.validate b) as [payload|]; [|by apply Hsame].
    destruct (update_note_cases k payload now d)
      as [[_ Hup]|[(_ & _ & Hup)|(c & Hk & _ & Hup)]];
      [rewrite (respond_absent _ _ _ _ _ _ Hup); apply Hsame, Habsent
      |unfold respond; rewrite Hup; by apply Hsame
      |unfold respond; rewrite Hup; simpl].
    eval_count_change. rewrite map_size_insert_Some by eauto. by rewrite Z.add_0_r.
  - pose proof (delete_note_eq k now d) as Hdel.
    destruct (notes d !! k) as [c|] eqn:Hk;
      [unfold respond; rewrite Hdel; simpl
      |rewrite (respond_absent _ _ _ _ _ _ Hdel); apply Hsame, Habsent].
    eval_count_change.
    assert (Hsize : size (notes d) = S (size (delete k (notes d)))).
    { rewrite <- (insert_delete_id (notes d) k c Hk) at 1.
      apply map_size_insert_None, lookup_delete_eq. }
    rewrite Hsize, Nat2Z.inj_succ. unfold Z.succ.
    by rewrite <- Z.add_assoc, Z.add_0_r.
Qed.

(** X9.  A request changes the length of the listing by exactly one note up
    when it is answered 201, one note down when it is answered 204, and not
    at all otherwise: an update, a read or a refused request neither adds
    nor drops a listed note. *)
Theorem listing_length_change (req : request) (now now1 now2 : datetime)
    (d : database) (l l' : list NoteOut.t) :
  app GET_notes now1 d = (mk_response 200 (JSON_notes l), d) →
  app GET_notes now2 (app req now d).2 =
    (mk_response 200 (JSON_notes l'), (app req now d).2) →
  Z.of_nat (length l') = Z.of_nat (length l) + count_change (app req now d).1.
Proof.
  intros (_ & Hl & _)%listing_inv (_ & Hl' & _)%listing_inv.
  rewrite Hl, Hl', !stored_notes_length. apply app_size.
Qed.

Lemma listing_length_change_witness :
  Z.of_nat (length [NoteOut.mk 2 "Chores" "Laundry"
                      "2024-01-02T09:30:00Z" "2024-01-02T09:30:00Z"]) =
  Z.of_nat (length [NoteOut.mk 2 "Chores" "Laundry"
                      "2024-01-02T09:30:00Z" "2024-01-02T09:30:00Z";
                    NoteOut.mk 1 "Groceries" "Milk, eggs"
                      "2024-01-01T09:30:00Z" "2024-01-01T09:30:00Z"]) +
  count_change (app (DELETE_note 1) ex.t3 ex.d2).1.
Proof.
  apply (listing_length_change (DELETE_note 1) ex.t3 ex.t3 ex.t3 ex.d2);
    vm_compute; reflexivity.
Defined.

(** X10.  A note created at a clock reading that is not behind the stored
    timestamps is the first of the listing: no stored note was updated
    later, and among those updated in the same second it has the largest
    id. *)
Theorem created_note_listed_first (b : body) (now now' : datetime)
    (d d' : database) (n : NoteOut.t) :
  app (POST_notes b) now d = (mk_response 201 (JSON_note n), d') →
  timestamps_upto (_utc_now_iso now) d →
  ∃ rest, app GET_notes now' d' = (mk_response 200 (JSON_notes (n :: rest)), d').
Proof.
  intros (t & c0 & -> & ->)%app_POST_notes_created Hupto.
  destruct (listing_sorted_permutation now'
              {| notes := <[db.next_rowid d :=
                              db.mk_columns t c0 (_utc_now_iso now) (_utc_now_iso now)]>
                            (notes d);
                 sqlite_sequence := db.next_rowid d |})
    as (l & Hl & Hperm & Hsorted).
  rewrite Hl.
  destruct (first_of_sorted listed_before l
              (note_of (db.next_rowid d)
                 (db.mk_columns t c0 (_utc_now_iso now) (_utc_now_iso now))))
    as [rest ->]; [apply listed_before_asym|done| | |by eauto].
  - rewrite Hperm. apply elem_of_stored_notes. eexists _, _.
    split; [|reflexivity]. simpl. apply lookup_insert_eq.
  - intros m. rewrite Hperm, elem_of_stored_notes. simpl.
    intros (k & c & Hk & ->) Hne. rewrite lookup_insert in Hk.
    destruct (decide (db.next_rowid d = k)) as [<-|Hnek].
    { injection Hk as <-. done. }
    destruct (Hupto k c Hk) as [_ Hle].
    pose proof (next_rowid_above_rows d k c Hk) as Hlt.
    unfold listed_before. simpl.
    destruct (decide (db.updated_at c = _utc_now_iso now)) as [Heq|Hneq].
    + right. split; [done|lia].
    + left. by apply strict_spec_alt.
Qed.

Lemma created_note_listed_first_witness :
  ∃ rest, app GET_notes ex.t3 ex.d2 =
            (mk_response 200
               (JSON_notes (NoteOut.mk 2 "Chores" "Laundry"
                              "2024-01-02T09:30:00Z" "2024-01-02T09:30:00Z" :: rest)),
             ex.d2).
Proof.
  apply (created_note_listed_first ex.chores ex.t2 ex.t3 ex.d1 ex.d2).
  - vm_compute. reflexivity.
  - unfold timestamps_upto. apply (bool_decide_unpack _). vm_compute. exact I.
Defined.

(** X11.  A note updated at a clock reading strictly later than the
    [updated_at] of every other stored note moves to the front of the
    listing. *)
Theorem updated_note_listed_first (note_id : Z) (b : body) (now now' : datetime)
    (d d' : database) (n : NoteOut.t) :
  app (PUT_note note_id b) now d = (mk_response 200 (JSON_note n), d') →
  others_updated_before note_id (_utc_now_iso now) d →
  ∃ rest, app GET_notes now' d' = (mk_response 200 (JSON_notes (n :: rest)), d').
Proof.
  simpl. destruct (NoteUpdate.validate b) as [payload|]; [|done].
  destruct (update_note_cases note_id payload now d)
    as [[_ Hup]|[(_ & _ & Hup)|(c & Hk & _ & Hup)]];
    [rewrite (respond_absent _ _ _ _ _ _ Hup); unfold answer_absent;
     by case_bool_decide
    |unfold respond; by rewrite Hup
    |unfold respond; rewrite Hup].
  simpl. intros [= <- <-] Hothers.
  set (c' := db.mk_columns _ _ _ _).
  destruct (listing_sorted_permutation now'
              {| notes := <[note_id := c']> (notes d);
                 sqlite_sequence := sqlite_sequence d |})
    as (l & Hl & Hperm & Hsorted).
  change (app GET_notes now'
            {| notes := <[note_id := c']> (notes d);
               sqlite_sequence := sqlite_sequence d |} =
          (mk_response 200 (JSON_notes l),
           {| notes := <[note_id := c']> (notes d);
              sqlite_sequence := sqlite_sequence d |})) in Hl.
  destruct (first_of_sorted listed_before l (note_of note_id c'))
    as [rest ->]; [apply listed_before_asym|done| | |by eauto].
  - rewrite Hperm. apply elem_of_stored_notes. eexists _, _.
    split; [|reflexivity]. simpl. apply lookup_insert_eq.
  - intros m. rewrite Hperm, elem_of_stored_notes. simpl.
    intros (k & c1 & Hk1 & ->) Hne. rewrite lookup_insert in Hk1.
    destruct (decide (note_id = k)) as [<-|Hnek].
    { injection Hk1 as <-. done. }
    left. simpl. by apply (Hothers k c1).
Qed.

Lemma updated_note_listed_first_witness :
  ∃ rest, app GET_notes ex.t3 (app (PUT_note 1 ex.more_groceries) ex.t3 ex.d2).2 =
            (mk_response 200
               (JSON_notes (NoteOut.mk 1 "Groceries" "Milk, eggs, bread"
                              "2024-01-01T09:30:00Z" "2024-01-03T18:00:59Z" :: rest)),
             (app (PUT_note 1 ex.more_groceries) ex.t3 ex.d2).2).
Proof.
  apply (updated_note_listed_first 1 ex.more_groceries ex.t3 ex.t3 ex.d2).
  - vm_compute. reflexivity.
  - intros j c Hj Hc.
    assert (Hall : map_Forall (λ j c, j ≠ 1 →
                     strict String.le (db.updated_at c) (_utc_now_iso ex.t3))
                     (notes ex.d2)).
    { unfold strict. apply (bool_decide_unpack _). vm_compute. exact I. }
    by apply (Hall j c).
Defined.

End more_listing.

(** ** Beyond the claims: the text of a clock reading *)

Section clock_text.

Import db iso8601.

Lemma elem_of_below (bound n : N) : (n < bound)%N → n ∈ below bound.
Proof.
  intros Hn. unfold below. apply list_elem_of_fmap. exists (N.to_nat n).
  split; [by rewrite N2Nat.id|]. apply elem_of_seq. lia.
Qed.

Lemma checked_below (f : N → bool) (bound n : N) :
  forallb f (below bound) = true → (n < bound)%N → f n = true.
Proof.
  intros Hall Hn. rewrite forallb_forall in Hall.
  by apply Hall, list_elem_of_In, elem_of_below.
Qed.

Lemma years_plain : forallb (padded_plain 4) (below 10000) = true.
Proof. vm_compute. reflexivity. Qed.

Lemma years_step : forallb (padded_step 4) (below 9999) = true.
Proof. vm_compute. reflexivity. Qed.

Lemma two_digits_plain : forallb (padded_plain 2) (below 100) = true.
Proof. vm_compute. reflexivity. Qed.

Lemma two_digits_step : forallb (padded_step 2) (below 99) = true.
Proof. vm_compute. reflexivity. Qed.

Lemma string_compare_refl (s : string) : String.compare s s = Eq.
Proof.
  induction s as [|c s IH]; simpl; [done|].
  unfold Ascii.compare. by rewrite N.compare_refl.
Qed.

Lemma string_ltb_trans (s1 s2 s3 : string) :
  String.ltb s1 s2 = true → String.ltb s2 s3 = true → String.ltb s1 s3 = true.
Proof.
  assert (Hlt : ∀ a b, String.ltb a b = true ↔ strict String.le a b).
  { intros a b. unfold String.ltb, strict, String.le, String.leb.
    rewrite (String.compare_antisym a b).
    destruct (String.compare b a); simpl;
      (split; [intros ?|intros [? Hn]]); try done;
      try (by destruct Hn); split; [done|by intros []]. }
  rewrite !Hlt. intros H12 H23. by etrans.
Qed.

(** Padding to [width] keeps the order of the numbers below [bound], provided
    it keeps the order of each number and the next. *)
Lemma padded_compare (width : nat) (bound m n : N) :
  forallb (padded_step width) (below (bound - 1)) = true →
  (m < bound)%N → (n < bound)%N →
  String.compare (zero_padded width m) (zero_padded width n) = (m ?= n)%N.
Proof.
  intros Hstep.
  assert (Hup : ∀ k a, (a + N.of_nat (S k) < bound)%N →
            String.ltb (zero_padded width a)
                       (zero_padded width (a + N.of_nat (S k))) = true).
  { induction k as [|k IH]; intros a Ha.
    - apply (checked_below (padded_step width) (bound - 1) a Hstep). lia.
    - replace (a + N.of_nat (S (S k)))%N with ((a + N.of_nat (S k)) + 1)%N by lia.
      eapply string_ltb_trans; [apply IH; lia|].
      apply (checked_below (padded_step width) (bound - 1) _ Hstep). lia. }
  assert (Hlt : ∀ a b, (a < b)%N → (b < bound)%N →
            String.compare (zero_padded width a) (zero_padded width b) = Lt).
  { intros a b Hab Hb.
    specialize (Hup (Nat.pred (N.to_nat (b - a))) a).
    replace (a + N.of_nat (S (Nat.pred (N.to_nat (b - a)))))%N with b in Hup by lia.
    specialize (Hup Hb). unfold String.ltb in Hup.
    by destruct (String.compare _ _). }
  intros Hm Hn. destruct (N.compare_spec m n) as [->|Hmn|Hmn].
  - apply string_compare_refl.
  - by apply Hlt.
  - rewrite String.compare_antisym, Hlt; done.
Qed.

Lemma string_length_app (s1 s2 : string) :
  String.length (s1 +:+ s2) = (String.length s1 + String.length s2)%nat.
Proof. induction s1 as [|c s1 IH]; simpl; [done|]. by rewrite IH. Qed.

(** Strings of the same length in front decide the comparison, unless they
    are equal. *)
Lemma string_compare_app (s1 s2 r1 r2 : string) :
  String.length s1 = String.length s2 →
  String.compare (s1 +:+ r1) (s2 +:+ r2) =
  then_by (String.compare s1 s2) (String.compare r1 r2).
Proof.
  revert s2. induction s1 as [|c1 s1 IH]; intros [|c2 s2]; simpl; try done.
  intros [= Hlen]. destruct (Ascii.compare c1 c2); simpl; [by apply IH|done..].
Qed.

Lemma string_compare_cons (c : ascii) (r1 r2 : string) :
  String.compare (String c r1) (String c r2) = String.compare r1 r2.
Proof. simpl. unfold Ascii.compare. by rewrite N.compare_refl. Qed.

(** [replace] leaves a text without a plus sign as it is and goes on with
    what follows it. *)
Lemma replace_from_plain (new s r : string) :
  contains "+" s = false →
  replace_from "+00:00" new 0 (s +:+ r) = s +:+ replace_from "+00:00" new 0 r.
Proof.
  induction s as [|c s IH]; [done|]. cbn [contains].
  intros [Hc Hs]%orb_false_iff.
  change (String c s +:+ r) with (String c (s +:+ r)).
  change (String c s +:+ replace_from "+00:00" new 0 r)
    with (String c (s +:+ replace_from "+00:00" new 0 r)).
  cbn [replace_from]. rewrite <- (IH Hs).
  assert (String.prefix "+00:00" (String c (s +:+ r)) = false) as ->; [|done].
  cbn [String.prefix]. destruct (ascii_dec "+" c) as [<-|Hne]; [|done].
  by rewrite Ascii.eqb_refl in Hc.
Qed.

Lemma append_char (c : ascii) (r : string) : String c "" +:+ r = String c r.
Proof. reflexivity. Qed.

Lemma year_padded (n : N) :
  (n ≤ 9999)%N →
  String.length (zero_padded 4 n) = 4%nat ∧ contains "+" (zero_padded 4 n) = false.
Proof.
  intros Hn.
  assert (Hplain : padded_plain 4 n = true)
    by (apply (checked_below _ 10000 n years_plain); lia).
  apply andb_true_iff in Hplain as [Hlen Hplus].
  split; [by apply Nat.eqb_eq|by apply negb_true_iff].
Qed.

Lemma two_digits_padded (n : N) :
  (n ≤ 59)%N →
  String.length (zero_padded 2 n) = 2%nat ∧ contains "+" (zero_padded 2 n) = false.
Proof.
  intros Hn.
  assert (Hplain : padded_plain 2 n = true)
    by (apply (checked_below _ 100 n two_digits_plain); lia).
  apply andb_true_iff in Hplain as [Hlen Hplus].
  split; [by apply Nat.eqb_eq|by apply negb_true_iff].
Qed.

Lemma utc_now_iso_text (t : datetime) :
  within_ranges t → _utc_now_iso t = timestamp_text t.
Proof.
  intros (Hy & Hmo & Hd & Hh & Hmi & Hs).
  destruct (year_padded (year t)) as [_ Py]; [done|].
  destruct (two_digits_padded (month t)) as [_ Pmo]; [lia|].
  destruct (two_digits_padded (day t)) as [_ Pd]; [lia|].
  destruct (two_digits_padded (hour t)) as [_ Ph]; [lia|].
  destruct (two_digits_padded (minute t)) as [_ Pmi]; [lia|].
  destruct (two_digits_padded (second t)) as [_ Ps]; [done|].
  unfold _utc_now_iso, str_replace, isoformat, timestamp_text. simpl.
  rewrite (replace_from_plain _ _ _ Py), (replace_from_plain _ "-") by done.
  rewrite (replace_from_plain _ _ _ Pmo), (replace_from_plain _ "-") by done.
  rewrite (replace_from_plain _ _ _ Pd), (replace_from_plain _ "T") by done.
  rewrite (replace_from_plain _ _ _ Ph), (replace_from_plain _ ":") by done.
  rewrite (replace_from_plain _ _ _ Pmi), (replace_from_plain _ ":") by done.
  by rewrite (replace_from_plain _ _ _ Ps).
Qed.

(** X12.  For a clock reading within the ranges of a [datetime],
    [_utc_now_iso] gives the text [YYYY-MM-DDTHH:MM:SSZ]: the zero-padded
    fields with their separators and a final [Z], 20 characters in all; the
    replacement of the offset touches nothing else, and the microseconds of
    the reading do not show. *)
Theorem utc_now_iso_shape (t : datetime) :
  within_ranges t →
  _utc_now_iso t = timestamp_text t ∧
  String.length (_utc_now_iso t) = 20%nat ∧
  ∀ us, _utc_now_iso (replace_microsecond us t) = _utc_now_iso t.
Proof.
  intros Hrange. split; [by apply utc_now_iso_text|]. split; [|done].
  rewrite utc_now_iso_text by done.
  destruct Hrange as (Hy & Hmo & Hd & Hh & Hmi & Hs).
  destruct (year_padded (year t)) as [Ly _]; [done|].
  destruct (two_digits_padded (month t)) as [Lmo _]; [lia|].
  destruct (two_digits_padded (day t)) as [Ld _]; [lia|].
  destruct (two_digits_padded (hour t)) as [Lh _]; [lia|].
  destruct (two_digits_padded (minute t)) as [Lmi _]; [lia|].
  destruct (two_digits_padded (second t)) as [Ls _]; [done|].
  unfold timestamp_text. rewrite !string_length_app, Ly, Lmo, Ld, Lh, Lmi, Ls.
  reflexivity.
Qed.

Lemma utc_now_iso_shape_witness :
  _utc_now_iso contract.ex.t3 = timestamp_text contract.ex.t3 ∧
  String.length (_utc_now_iso contract.ex.t3) = 20%nat ∧
  ∀ us, _utc_now_iso (replace_microsecond us contract.ex.t3) =
        _utc_now_iso contract.ex.t3.
Proof.
  apply (utc_now_iso_shape contract.ex.t3). unfold within_ranges. simpl. lia.
Defined.

Lemma year_compare (m n : N) :
  (m ≤ 9999)%N → (n ≤ 9999)%N →
  String.compare (zero_padded 4 m) (zero_padded 4 n) = (m ?= n)%N.
Proof.
  intros Hm Hn. apply (padded_compare 4 10000); [exact years_step|lia|lia].
Qed.

Lemma two_digits_compare (m n : N) :
  (m ≤ 59)%N → (n ≤ 59)%N →
  String.compare (zero_padded 2 m) (zero_padded 2 n) = (m ?= n)%N.
Proof.
  intros Hm Hn. apply (padded_compare 2 100); [exact two_digits_step|lia|lia].
Qed.

Lemma utc_now_iso_compare (a b : datetime) :
  within_ranges a → within_ranges b →
  String.compare (_utc_now_iso a) (_utc_now_iso b) = chronological a b.
Proof.
  intros Ha Hb. rewrite !utc_now_iso_text by done.
  destruct Ha as (Hya & Hmoa & Hda & Hha & Hmia & Hsa).
  destruct Hb as (Hyb & Hmob & Hdb & Hhb & Hmib & Hsb).
  unfold timestamp_text, chronological.
  rewrite string_compare_app, !append_char, string_compare_cons
    by (by rewrite (proj1 (year_padded _ Hya)), (proj1 (year_padded _ Hyb))).
  rewrite year_compare by done.
  assert (Htwo : ∀ m n r1 r2, (m ≤ 59)%N → (n ≤ 59)%N →
            String.compare (zero_padded 2 m +:+ r1) (zero_padded 2 n +:+ r2) =
            then_by (m ?= n)%N (String.compare r1 r2)).
  { intros m n r1 r2 Hm Hn. rewrite string_compare_app.
    - by rewrite two_digits_compare.
    - by rewrite (proj1 (two_digits_padded _ Hm)), (proj1 (two_digits_padded _ Hn)). }
  rewrite Htwo, string_compare_cons by lia.
  rewrite Htwo, string_compare_cons by lia.
  rewrite Htwo, string_compare_cons by lia.
  rewrite Htwo, string_compare_cons by lia.
  rewrite Htwo by lia. simpl. by destruct (second a ?= second b)%N.
Qed.

Lemma utc_now_iso_le (a b : datetime) :
  within_ranges a → within_ranges b →
  String.le (_utc_now_iso a) (_utc_now_iso b) ↔ not_later a b.
Proof.
  intros Ha Hb. unfold String.le, String.leb, not_later.
  rewrite utc_now_iso_compare by done.
  destruct (chronological a b); simpl; split; done.
Qed.

(** X13.  The texts of two clock readings within the ranges compare, byte by
    byte, as the readings do in time (to the second): sorting notes by the
    text of [updated_at] sorts them by time, and two readings give the same
    text exactly when they agree to the second. *)
Theorem utc_now_iso_order (a b : datetime) :
  within_ranges a → within_ranges b →
  String.compare (_utc_now_iso a) (_utc_now_iso b) = chronological a b ∧
  (String.le (_utc_now_iso a) (_utc_now_iso b) ↔ chronological a b ≠ Gt) ∧
  (_utc_now_iso a = _utc_now_iso b ↔ chronological a b = Eq).
Proof.
  intros Ha Hb. split; [by apply utc_now_iso_compare|]. split.
  - by apply utc_now_iso_le.
  - rewrite <- (utc_now_iso_compare a b) by done. split.
    + intros ->. apply string_compare_refl.
    + apply String.compare_eq_iff.
Qed.

Lemma utc_now_iso_order_witness :
  String.compare (_utc_now_iso contract.ex.t1) (_utc_now_iso contract.ex.t3) =
    chronological contract.ex.t1 contract.ex.t3 ∧
  (String.le (_utc_now_iso contract.ex.t1) (_utc_now_iso contract.ex.t3) ↔
   chronological contract.ex.t1 contract.ex.t3 ≠ Gt) ∧
  (_utc_now_iso contract.ex.t1 = _utc_now_iso contract.ex.t3 ↔
   chronological contract.ex.t1 contract.ex.t3 = Eq).
Proof.
  apply (utc_now_iso_order contract.ex.t1 contract.ex.t3);
    unfold within_ranges; simpl; lia.
Defined.

End clock_text.

(** ** Beyond the claims: a clock that does not go back *)

Section steady_clock.

Import handler models notes_routes main contract behaviour iso8601.
Import db (database, columns, notes, sqlite_sequence, datetime, _utc_now_iso).

Lemma clock_never_behind_from (reqs : list (request * datetime)) (d : database)
    (ts : list string) :
  timestamps_among ts d →
  (∀ s t, s ∈ ts → t ∈ clocks reqs → String.le s (_utc_now_iso t)) →
  Forall within_ranges (clocks reqs) → StronglySorted not_later (clocks reqs) →
  clock_never_behind reqs d.
Proof.
  revert d ts. induction reqs as [|[req now] reqs IH]; intros d ts Hamong Hle Hrange Hsorted;
    [done|].
  unfold clocks in *. simpl in Hrange, Hsorted, Hle.
  apply Forall_cons in Hrange as [Hnow Hrange].
  apply StronglySorted_cons in Hsorted as [Hlater Hsorted].
  rewrite Forall_forall in Hlater, Hrange.
  cbn [clock_never_behind]. split.
  - intros k c Hk. destruct (Hamong k c Hk) as [Hc Hu]. simpl.
    split; apply Hle; (done || by left).
  - apply (IH _ (ts ++ [_utc_now_iso now])); [by apply app_timestamps| |
      by apply Forall_forall|done].
    intros s t [Hs|Hs]%elem_of_app Ht.
    + apply Hle; [done|by right].
    + apply list_elem_of_singleton in Hs as ->.
      apply utc_now_iso_le; [done|by apply Hrange|by apply Hlater].
Qed.

(** X14.  When the clock readings of a run are within the ranges of a
    [datetime] and none is earlier than one before it, every request of the
    run from a fresh database is served at a reading that is not behind the
    stored timestamps, and every note left in the database has
    [updated_at >= created_at]. *)
Theorem steady_clock_keeps_order (history : list (request * datetime)) :
  Forall within_ranges (clocks history) →
  StronglySorted not_later (clocks history) →
  clock_never_behind history (_startup None) ∧
  updated_after_created (database_after history).
Proof.
  intros Hrange Hsorted.
  assert (Hclock : clock_never_behind history (_startup None)).
  { apply (clock_never_behind_from history _ []); [apply map_Forall_empty| |done..].
    intros s t Hs. by apply elem_of_nil in Hs. }
  split; [done|]. apply serve_keeps_order; [apply map_Forall_empty|done].
Qed.

Lemma steady_clock_keeps_order_witness :
  clock_never_behind
    [(POST_notes ex.groceries, ex.t1); (PUT_note 1 ex.more_groceries, ex.t2);
     (POST_notes ex.chores, ex.t2)] (_startup None) ∧
  updated_after_created
    (database_after
       [(POST_notes ex.groceries, ex.t1); (PUT_note 1 ex.more_groceries, ex.t2);
        (POST_notes ex.chores, ex.t2)]).
Proof.
  apply (steady_clock_keeps_order
           [(POST_notes ex.groceries, ex.t1); (PUT_note 1 ex.more_groceries, ex.t2);
            (POST_notes ex.chores, ex.t2)]).
  - unfold clocks, within_ranges. simpl. repeat constructor; simpl; lia.
  - unfold clocks, not_later. simpl. repeat constructor; by vm_compute.
Defined.

End steady_clock.

(** ** Beyond the claims: the path in [db_connection.txt] *)

Section connection_txt.

Import text db_config.

Lemma lower_char_colon (c : ascii) : lower_char c = ":"%char ↔ c = ":"%char.
Proof.
  destruct c as [[] [] [] [] [] [] [] []]; vm_compute; split; congruence.
Qed.

Lemma prefix_cons (m c : ascii) (ms s : string) :
  String.prefix (String m ms) (String c s) = true ↔ m = c ∧ String.prefix ms s = true.
Proof.
  cbn [String.prefix]. destruct (ascii_dec m c); split; try done; intros [? ?]; done.
Qed.

(** A line whose lower-case form starts with a text without colon followed
    by a colon is split at that colon. *)
Lemma partition_after_marker (m line : string) :
  iso8601.contains ":" m = false →
  String.prefix (m +:+ ":") (lower line) = true →
  ∃ before, partition ":" line = Some (before, from (S (String.length m)) line).
Proof.
  revert line. induction m as [|x m IH]; intros [|c line] Hm Hprefix;
    try discriminate Hprefix.
  - change ("" +:+ ":") with ":" in Hprefix. cbn [lower] in Hprefix.
    apply prefix_cons in Hprefix as [Hc _]. symmetry in Hc.
    apply lower_char_colon in Hc as ->. by exists "".
  - change (String x m +:+ ":") with (String x (m +:+ ":")) in Hprefix.
    cbn [lower] in Hprefix. apply prefix_cons in Hprefix as [Hx Hprefix].
    cbn [iso8601.contains] in Hm. apply orb_false_iff in Hm as [Hx' Hm].
    destruct (IH line Hm Hprefix) as [before Hpart].
    exists (String c before). cbn [partition from String.length].
    rewrite Hpart. destruct (decide (c = ":"%char)) as [->|Hne]; [|done].
    exfalso. subst x. by vm_compute in Hx'.
Qed.

Lemma split_after_marker (line : string) :
  startswith "# file path:" (lower line) = true →
  split_once ":" line !! 1%nat = Some (from 12 line).
Proof.
  intros Hprefix.
  destruct (partition_after_marker "# file path" line) as [before Hpart]; [done..|].
  unfold split_once. by rewrite Hpart.
Qed.

Lemma rstrip_cons (c : ascii) (s : string) :
  isspace c = false ∨ rstrip s ≠ "" → rstrip (String c s) = String c (rstrip s).
Proof.
  intros Hkeep. cbn [rstrip]. destruct (rstrip s) as [|c' r]; [|done].
  destruct Hkeep as [->|?]; done.
Qed.

Lemma rstrip_idem (s : string) : rstrip (rstrip s) = rstrip s.
Proof.
  induction s as [|c s IH]; [done|]. cbn [rstrip].
  destruct (rstrip s) as [|c' r] eqn:Hr.
  - destruct (isspace c) eqn:Hc; [done|]. cbn [rstrip]. by rewrite Hc.
  - rewrite rstrip_cons; [by rewrite IH|]. right. by rewrite IH.
Qed.

Lemma lstrip_rstrip (s : string) : lstrip (rstrip s) = rstrip (lstrip s).
Proof.
  induction s as [|c s IH]; [done|]. cbn [lstrip].
  destruct (isspace c) eqn:Hc.
  - cbn [rstrip]. destruct (rstrip s) as [|c' r] eqn:Hr.
    + rewrite Hc. by rewrite <- IH.
    + cbn [lstrip]. rewrite Hc. by rewrite <- IH.
  - rewrite rstrip_cons by (by left). cbn [lstrip]. by rewrite Hc.
Qed.

Lemma lstrip_idem (s : string) : lstrip (lstrip s) = lstrip s.
Proof.
  induction s as [|c s IH]; [done|]. cbn [lstrip].
  destruct (isspace c) eqn:Hc; [done|]. cbn [lstrip]. by rewrite Hc.
Qed.

Lemma strip_idem (s : string) : strip (strip s) = strip s.
Proof.
  unfold strip. by rewrite lstrip_rstrip, lstrip_idem, rstrip_idem.
Qed.

Section with_path.

Variable connection_txt_path : string.

Lemma first_file_path_skip (before rest : list string) :
  Forall (λ l, has_marker l = false) before →
  first_file_path connection_txt_path (before ++ rest) =
  first_file_path connection_txt_path rest.
Proof.
  induction 1 as [|line before Hline _ IH]; [done|].
  cbn [app first_file_path]. unfold has_marker in Hline. by rewrite Hline.
Qed.

Lemma first_file_path_here (line : string) (rest : list string) :
  has_marker line = true →
  first_file_path connection_txt_path (line :: rest) = Ok (strip (from 12 (strip line))).
Proof.
  intros Hline. cbn [first_file_path]. unfold has_marker in Hline.
  by rewrite Hline, (split_after_marker _ Hline).
Qed.

Lemma first_file_path_cases (lines : list string) :
  (∃ before line after,
     lines = before ++ line :: after ∧
     Forall (λ l, has_marker l = false) before ∧ has_marker line = true ∧
     first_file_path connection_txt_path lines = Ok (strip (from 12 (strip line)))) ∨
  (Forall (λ l, has_marker l = false) lines ∧
   first_file_path connection_txt_path lines =
     Raised (no_file_path_line connection_txt_path)).
Proof.
  induction lines as [|line lines IH]; [by right|].
  destruct (has_marker line) eqn:Hline.
  - left. exists [], line, lines. split; [done|]. split; [done|]. split; [done|].
    by apply first_file_path_here.
  - destruct IH as [(before & l & after & -> & Hbefore & Hl & Heq)|[Hall Heq]].
    + left. exists (line :: before), l, after. split; [done|].
      split; [by constructor|]. split; [done|].
      etrans; [|exact Heq].
      apply (first_file_path_skip [line] (before ++ l :: after)). by constructor.
    + right. split; [by constructor|]. etrans; [|exact Heq].
      apply (first_file_path_skip [line] lines). by constructor.
Qed.

(** X15.  The parser returns the path of the first line that carries the
    marker [# File path:], in any letter case and with any whitespace around
    the line: the text after the marker, later colons included, without the
    whitespace at its ends.  When no line carries the marker (an empty text,
    for instance) it raises the [RuntimeError] that names the file.  It never
    fails in any other way: the index into the split line is always there. *)
Theorem parse_db_path_outcomes (txt : string) :
  (∃ before line after path,
     splitlines txt = before ++ line :: after ∧
     Forall (λ l, has_marker l = false) before ∧ has_marker line = true ∧
     path = strip (from 12 (strip line)) ∧ strip path = path ∧
     _parse_db_path_from_db_connection_txt connection_txt_path txt = Ok path) ∨
  (Forall (λ l, has_marker l = false) (splitlines txt) ∧
   _parse_db_path_from_db_connection_txt connection_txt_path txt =
     Raised (no_file_path_line connection_txt_path)).
Proof.
  unfold _parse_db_path_from_db_connection_txt.
  destruct (first_file_path_cases (splitlines txt))
    as [(before & line & after & Hsplit & Hbefore & Hline & Heq)|[Hall Heq]].
  - left. exists before, line, after, (strip (from 12 (strip line))).
    repeat (split; [done|]). split; [apply strip_idem|done].
  - by right.
Qed.

End with_path.

Lemma string_app_assoc (s1 s2 s3 : string) : (s1 +:+ s2) +:+ s3 = s1 +:+ s2 +:+ s3.
Proof. induction s1 as [|c s1 IH]; [done|]. exact (f_equal (String c) IH). Qed.

Lemma every_app (P : ascii → bool) (s1 s2 : string) :
  every P (s1 +:+ s2) = every P s1 && every P s2.
Proof.
  induction s1 as [|c s1 IH]; [done|].
  change (every P (String c s1 +:+ s2)) with (P c && every P (s1 +:+ s2)).
  cbn [every]. by rewrite IH, andb_assoc.
Qed.

Lemma segments_line (line rest : string) :
  no_linebreak line →
  segments (line +:+ String "010" rest) = (line, (segments rest).1 :: (segments rest).2).
Proof.
  unfold no_linebreak. induction line as [|c line IH]; intros Hline.
  - change ("" +:+ String "010" rest) with (String "010" rest).
    cbn [segments]. by destruct rest.
  - cbn [every] in Hline. apply andb_true_iff in Hline as [Hc Hline].
    apply negb_true_iff in Hc.
    change (String c line +:+ String "010" rest)
      with (String c (line +:+ String "010" rest)).
    cbn [segments]. by rewrite Hc, (IH Hline).
Qed.

Lemma splitlines_line (line rest : string) :
  no_linebreak line →
  splitlines (line +:+ String "010" rest) = line :: splitlines rest.
Proof.
  intros Hline. unfold splitlines. by rewrite (segments_line _ _ Hline).
Qed.

Lemma splitlines_unlines (header : list string) (rest : string) :
  Forall no_linebreak header →
  splitlines (unlines header +:+ rest) = header ++ splitlines rest.
Proof.
  induction 1 as [|line header Hline _ IH]; [done|].
  cbn [unlines foldr]. fold (unlines header).
  rewrite string_app_assoc.
  change (String "010" (unlines header) +:+ rest)
    with (String "010" (unlines header +:+ rest)).
  by rewrite (splitlines_line _ _ Hline), IH.
Qed.

Lemma string_app_nil_r (s : string) : s +:+ "" = s.
Proof. induction s as [|c s IH]; [done|]. exact (f_equal (String c) IH). Qed.

Lemma rstrip_app_cases (a x : string) :
  rstrip (a +:+ x) = match rstrip x with
                     | EmptyString => rstrip a
                     | r => a +:+ r
                     end.
Proof.
  induction a as [|c a IH].
  - change ("" +:+ x) with x. by destruct (rstrip x).
  - change (String c a +:+ x) with (String c (a +:+ x)).
    cbn [rstrip]. rewrite IH. destruct (rstrip x) as [|c' r]; [done|].
    by destruct a.
Qed.

(** [rstrip] does not reach into a text that it would leave as it is. *)
Lemma rstrip_app (a x : string) :
  rstrip a = a → rstrip (a +:+ x) = a +:+ rstrip x.
Proof.
  intros Ha. rewrite rstrip_app_cases. destruct (rstrip x); [|done].
  by rewrite Ha, string_app_nil_r.
Qed.

Lemma prefix_app (a s : string) : String.prefix a (a +:+ s) = true.
Proof.
  induction a as [|c a IH]; [by destruct s|].
  change (String c a +:+ s) with (String c (a +:+ s)).
  by apply prefix_cons.
Qed.

Lemma marker_line (path : string) :
  has_marker ("# File path: " +:+ path) = true ∧
  strip (from 12 (strip ("# File path: " +:+ path))) = strip path.
Proof.
  assert (Hstrip : strip ("# File path: " +:+ path) =
                   "# File path:" +:+ rstrip (String " " path)).
  { unfold strip. change (lstrip ("# File path: " +:+ path))
      with ("# File path:" +:+ String " " path).
    by apply rstrip_app. }
  unfold has_marker. rewrite Hstrip. split.
  { generalize (rstrip (String " " path)). intros y.
    change (lower ("# File path:" +:+ y)) with ("# file path:" +:+ lower y).
    apply prefix_app. }
  change (from 12 ("# File path:" +:+ rstrip (String " " path)))
    with (rstrip (String " " path)).
  unfold strip. by rewrite lstrip_rstrip, rstrip_idem.
Qed.

(** X16.  Writing the path and reading it back: in a text made of whole lines
    without the marker, then the line [# File path: ] followed by a path,
    then anything, the parser finds that path, without the whitespace at its
    ends. *)
Theorem parse_db_path_round_trip (connection_txt_path : string)
    (header : list string) (path trailer : string) :
  Forall no_linebreak header →
  Forall (λ l, has_marker l = false) header →
  no_linebreak path →
  _parse_db_path_from_db_connection_txt connection_txt_path
    (unlines header +:+ "# File path: " +:+ path +:+ String "010" trailer) =
  Ok (strip path).
Proof.
  intros Hlines Hheader Hpath.
  destruct (marker_line path) as [Hmarker Hresult].
  unfold _parse_db_path_from_db_connection_txt.
  rewrite (splitlines_unlines _ _ Hlines), <- string_app_assoc.
  rewrite splitlines_line.
  - by rewrite first_file_path_skip, first_file_path_here, Hresult.
  - unfold no_linebreak in *. by rewrite every_app, Hpath.
Qed.

Lemma parse_db_path_round_trip_witness :
  _parse_db_path_from_db_connection_txt "/srv/database/db_connection.txt"
    (unlines ["# SQLite connection methods:"; "# Python: sqlite3.connect('myapp.db')"]
     +:+ "# File path: " +:+ "/srv/database/myapp.db  " +:+
     String "010" "# Connection string: sqlite:////srv/database/myapp.db") =
  Ok (strip "/srv/database/myapp.db  ").
Proof.
  apply (parse_db_path_round_trip "/srv/database/db_connection.txt"
           ["# SQLite connection methods:"; "# Python: sqlite3.connect('myapp.db')"]
           "/srv/database/myapp.db  "
           "# Connection string: sqlite:////srv/database/myapp.db").
  - repeat constructor.
  - repeat constructor.
  - reflexivity.
Defined.

End connection_txt.

(** ** Beyond the claims: the calls of [db.py] *)

Section call_logs.

Import text db_config db_calls.

Variable connection_txt_path : string.

Lemma perform_cases (c : call) (w : world) (log : list entry) :
  perform c w log = (Returned tt, log ++ [(c, true)]) ∨
  ∃ what, perform c w log = (Raise (LibraryError what), log ++ [(c, false)]).
Proof. unfold perform. destruct (raises w (length log) c); eauto. Qed.

(** Run the computation of the goal call by call, in both ways each call can
    end, and give the calls made as the extension of the log. *)
Ltac run_calls :=
  cbv [get_db_path _connect ensure_schema execute_select execute_select_one
       execute_modify try_finally ask io_ret io_raise io_bind mbind mret
       io_mret io_mbind];
  repeat first
    [ match goal with
      | |- context [perform ?c ?w ?l] =>
          destruct (perform_cases c w l) as [->|[? ->]]
      end
    | match goal with
      | |- context [txt_exists ?w] => destruct (txt_exists w) eqn:?
      | |- context [_parse_db_path_from_db_connection_txt ?p ?t] =>
          destruct (_parse_db_path_from_db_connection_txt p t) eqn:?
      | |- context [lastrowid ?w] => destruct (lastrowid w) eqn:?
      end
    | progress cbv beta iota zeta delta [negb fst snd] ].

Ltac give_log :=
  eexists; split; [rewrite <- ?app_assoc; reflexivity|].

Lemma ensure_schema_log (w : world) (log : list entry) :
  ∃ ext, (ensure_schema connection_txt_path w log).2 = log ++ ext ∧
         sound_log (ensure_schema connection_txt_path w log).1 ext.
Proof. run_calls; give_log; by repeat split. Qed.

Lemma execute_select_log (sql : string) (params : list value)
    (w : world) (log : list entry) :
  ∃ ext, (execute_select connection_txt_path sql params w log).2 = log ++ ext ∧
         sound_log (execute_select connection_txt_path sql params w log).1 ext.
Proof. run_calls; give_log; by repeat split. Qed.

Lemma execute_select_one_log (sql : string) (params : list value)
    (w : world) (log : list entry) :
  ∃ ext, (execute_select_one connection_txt_path sql params w log).2 = log ++ ext ∧
         sound_log (execute_select_one connection_txt_path sql params w log).1 ext.
Proof. run_calls; give_log; by repeat split. Qed.

Lemma execute_modify_log (sql : string) (params : list value)
    (w : world) (log : list entry) :
  ∃ ext, (execute_modify connection_txt_path sql params w log).2 = log ++ ext ∧
         sound_log (execute_modify connection_txt_path sql params w log).1 ext.
Proof. run_calls; give_log; by repeat split. Qed.

Lemma helper_runs_sound (sql : string) (params : list value)
    (w : world) (log : list entry) :
  Forall (λ run, ∃ ext, run.2 = log ++ ext ∧
                        disciplined false false ext = true ∧
                        commit_after_success ext = true ∧
                        pragma_first false ext = true ∧
                        (run.1 = true →
                         forallb snd ext = true ∧
                         existsb (λ e, is_commit e.1) ext = true))
         (helper_runs connection_txt_path sql params w log).
Proof.
  unfold helper_runs. repeat constructor; cbn [fst snd].
  - apply ensure_schema_log.
  - apply execute_select_log.
  - apply execute_select_one_log.
  - apply execute_modify_log.
Qed.



(** X19.  None of the four helpers commits after a failure: when
    [conn.commit()] is called, every call before it has returned.  A helper
    that returns has committed, and all its calls have returned. *)
Theorem helpers_commit_after_success (sql : string) (params : list value)
    (w : world) (log : list entry) :
  Forall (λ run, ∃ ext, run.2 = log ++ ext ∧
                        commit_after_success ext = true ∧
                        (run.1 = true →
                         forallb snd ext = true ∧
                         existsb (λ e, is_commit e.1) ext = true))
         (helper_runs connection_txt_path sql params w log).
Proof.
  eapply Forall_impl; [apply helper_runs_sound|].
  intros run (ext & Hext & _ & Hcommit & _ & Hreturned). by exists ext.
Qed.

(** X20.  On every connection that a helper opens, the pragma that switches
    foreign keys on has returned before the helper executes its statement. *)
Theorem helpers_enable_foreign_keys_first (sql : string) (params : list value)
    (w : world) (log : list entry) :
  Forall (λ run, ∃ ext, run.2 = log ++ ext ∧ pragma_first false ext = true)
         (helper_runs connection_txt_path sql params w log).
Proof.
  eapply Forall_impl; [apply helper_runs_sound|].
  intros run (ext & Hext & _ & _ & Hpragma & _). by exists ext.
Qed.

End call_logs.

Section call_examples.

Import db_calls.

(** A statement that raises: the cursor and the connection are closed, the
    commit is not called, and the exception of the statement comes out. *)
Example execute_modify_statement_raises :
  execute_modify "/srv/api/db_connection.txt" "DELETE FROM notes WHERE id = ?"
    [Integer 1] (stormy "/srv/database/myapp.db") [] =
  (Raise (LibraryError "sqlite3.OperationalError"),
   [(Path_exists, true); (Path_read_text, true);
    (os_makedirs "/srv/database", true);
    (sqlite3_connect "/srv/database/myapp.db", true);
    (conn_set_row_factory, true);
    (conn_execute "PRAGMA foreign_keys = ON;", true);
    (conn_cursor, true);
    (cur_execute "DELETE FROM notes WHERE id = ?" [Integer 1], false);
    (cur_close, true); (conn_close, true)]).
Proof. vm_compute. reflexivity. Qed.

End call_examples.
